(** * SDLC workflow assistant (app.py): a shallow embedding and its properties

    The program is a Streamlit script.  Each user interaction re-executes the
    whole script against the persistent [st.session_state]; a button returns
    [True] only in the run that its click triggered.  The embedding follows
    that shape: a record for the session state, a small state / output /
    interrupt monad for one script run, and one definition per source
    function. *)

From Stdlib Require Import Ascii.
From stdpp Require Import base option list strings gmap fin_maps.

Local Open Scope string_scope.

(** ** Stage registry (WORKFLOW_STEPS, lines 28-39) *)

Record step := Step {
  id : string;
  label : string;
  icon : string;
  color : string
}.

Definition WORKFLOW_STEPS : list step := [
  Step "api_input" "🤖 AI Powered Automation" "fa-key" "#2196F3";
  Step "user_stories" "User Stories" "fa-clipboard-list" "#4CAF50";
  Step "design_docs" "Design Docs" "fa-drafting-compass" "#FF9800";
  Step "code_generation" "Code Generation" "fa-code" "#9C27B0";
  Step "code_review" "Code Review" "fa-search-plus" "#00BCD4";
  Step "security_review" "Security Review" "fa-shield-alt" "#F44336";
  Step "test_cases" "Test Cases" "fa-vial" "#8BC34A";
  Step "qa_testing" "QA Testing" "fa-check-double" "#3F51B5";
  Step "deployment" "Deployment" "fa-rocket" "#E91E63";
  Step "monitoring" "Monitoring" "fa-chart-line" "#009688"
].

Definition step_ids : list string := id <$> WORKFLOW_STEPS.

(** ** Prompt templates (PROMPT_TEMPLATES, lines 42-56) *)

Definition nl : string := String (Ascii.ascii_of_nat 10) "".

Definition design_docs_template : string :=
  "Create functional and technical design documents for: {prompt}" +:+ nl +:+
  "    Functional:" +:+ nl +:+
  "    - User flows" +:+ nl +:+
  "    - Feature specs" +:+ nl +:+
  "    " +:+ nl +:+
  "    Technical:" +:+ nl +:+
  "    - Architecture" +:+ nl +:+
  "    - Tech stack" +:+ nl +:+
  "    - Data models".

Definition PROMPT_TEMPLATES : gmap string string :=
  <["user_stories" :=
      "Generate comprehensive user stories for: {prompt}. Include acceptance criteria."]>
  (<["design_docs" := design_docs_template]>
  (<["code_generation" :=
      "Generate production-ready code for: {prompt}. Include error handling and docs."]>
  (<["test_cases" :=
      "Create test cases for: {prompt}. Include positive/negative scenarios."]>
  (<["deployment" :=
      "Create deployment plan for: {prompt}. Include rollback strategy."]> ∅)))).

(** Python truthiness of a [str]: the empty string is falsy. *)
Definition truthy (s : string) : bool :=
  match s with
  | EmptyString => false
  | String _ _ => true
  end.

(** ** [str.format(prompt=value)]

    The fragment of Python's format-string language the templates live in:
    literal text, the escapes [{{] and [}}], and the plain replacement field
    [{prompt}].  Outside it the model returns [None]: where Python raises
    (an unknown or empty field name, an unbalanced brace: [KeyError],
    [IndexError], [ValueError]), and also for the fields with a conversion,
    a format specification or an attribute or index, which Python accepts
    and no template uses. *)

Inductive fmt_mode :=
| FText
| FOpen
| FField (name : string)
| FClose.

Fixpoint format_from (mode : fmt_mode) (value template : string) : option string :=
  match template with
  | EmptyString =>
      match mode with
      | FText => Some ""
      | _ => None
      end
  | String c rest =>
      match mode with
      | FText =>
          if Ascii.eqb c "{"%char then format_from FOpen value rest
          else if Ascii.eqb c "}"%char then format_from FClose value rest
          else String c <$> format_from FText value rest
      | FOpen =>
          if Ascii.eqb c "{"%char then String "{"%char <$> format_from FText value rest
          else if Ascii.eqb c "}"%char then None
          else format_from (FField (String c "")) value rest
      | FField name =>
          if Ascii.eqb c "}"%char then
            if String.eqb name "prompt"
            then String.append value <$> format_from FText value rest
            else None
          else if Ascii.eqb c "{"%char then None
          else format_from (FField (name +:+ String c "")) value rest
      | FClose =>
          if Ascii.eqb c "}"%char then String "}"%char <$> format_from FText value rest
          else None
      end
  end.

Definition format (template value : string) : option string :=
  format_from FText value template.

(** Number of occurrences of the replacement field [{prompt}] in a template. *)
Fixpoint slot_count (template : string) : nat :=
  match template with
  | EmptyString => 0
  | String _ rest =>
      (if String.prefix "{prompt}" template then 1 else 0) + slot_count rest
  end.

(** ** Session state (lines 8-18)

    The initialisation block at the top of the script gives the five
    workflow fields a value before anything reads them, so they are plain
    fields.  [api_key] and [project_prompt] are only created by the intake
    page and are read with [in] / [.get], so they are optional. *)

Record session := Session {
  current_step : string;
  approved : gmap string bool;
  feedback : gmap string string;
  generated_content : gmap string string;
  show_completion_prompt : bool;
  api_key : option string;
  project_prompt : option string
}.

Definition initial_session : session :=
  Session "api_input" ∅ ∅ ∅ false None None.

(** ** One script run

    What the outside world supplies to one execution of the script: which
    button's click triggered it, the current values of the text widgets, the
    clock, and how the completion service behaves during the run. *)

Inductive button :=
| BtnStart                         (* st.button("Start SDLC Workflow") *)
| BtnApprove (step_id : string)    (* key = f"approve_{step_id}" *)
| BtnSubmit (step_id : string)     (* key = f"submit_{step_id}" *)
| BtnStartNew                      (* st.button("🔄 Start New SDLC") *)
| BtnQuit.                         (* st.button("🚪 Quit") *)

Global Instance button_eq_dec : EqDecision button.
Proof. solve_decision. Defined.

Record run_input := RunInput {
  clicked : option button;
  api_key_input : string;            (* st.text_input("Groq API Key:") *)
  project_input : string;            (* st.text_area("Project Description:") *)
  feedback_input : string → string;  (* st.text_area(key=f"feedback_{step_id}") *)
  now_isoformat : string;            (* datetime.now().isoformat() *)
  (* the body of the [try] in generate_with_groq: api key (if the attribute
     exists), system prompt, user prompt; the text returned, or [str(e)] of
     the exception raised *)
  completion : option string → string → string → string + string
}.

Definition pressed (w : run_input) (b : button) : bool :=
  bool_decide (clicked w = Some b).

Record step_export := StepExport {
  content : string;
  export_feedback : string;
  export_approved : bool
}.

Record workflow_data := WorkflowData {
  project : string;
  timestamp : string;
  steps : gmap string step_export
}.

(** What a run does that is visible from outside: the calls of the content
    generator and what is put on the page (styling and icons left out). *)
Inductive event :=
| Generate (prompt step : string)
| Header (text : string)
| Markdown (text : string)
| Error (text : string)
| Warning (text : string)
| Success (text : string)
| Spinner (text : string)
| DownloadText (key data : string)
| DownloadJson (key : string) (data : workflow_data).

(** A run ends normally, or is cut short by [st.rerun()], by [st.stop()], or
    by an uncaught exception. *)
Inductive interrupt :=
| Rerun
| Stopped
| Raise (exn : string).

Record outcome (A : Type) := Outcome {
  result : A + interrupt;
  state : session;
  trace : list event
}.
Arguments Outcome {A} _ _ _.
Arguments result {A} _.
Arguments state {A} _.
Arguments trace {A} _.

Definition script (A : Type) : Type := session → outcome A.

Global Instance script_ret : MRet script :=
  λ A (a : A) s, Outcome (inl a) s [].

Global Instance script_bind : MBind script :=
  λ A B (k : A → script B) (m : script A) s,
    let o := m s in
    match result o with
    | inl a =>
        let o' := k a (state o) in
        Outcome (result o') (state o') (trace o ++ trace o')
    | inr i => Outcome (inr i) (state o) (trace o)
    end.

Definition get : script session := λ s, Outcome (inl s) s [].
Definition modify (f : session → session) : script unit :=
  λ s, Outcome (inl tt) (f s) [].
Definition emit (i : event) : script unit := λ s, Outcome (inl tt) s [i].
Definition break {A} (i : interrupt) : script A := λ s, Outcome (inr i) s [].
Definition when (b : bool) (m : script unit) : script unit :=
  if b then m else mret tt.

(** Assignments to the fields of [st.session_state]. *)
Definition set_current_step (v : string) (s : session) : session :=
  Session v (approved s) (feedback s) (generated_content s)
          (show_completion_prompt s) (api_key s) (project_prompt s).
Definition set_approved (k : string) (v : bool) (s : session) : session :=
  Session (current_step s) (<[k := v]> (approved s)) (feedback s)
          (generated_content s) (show_completion_prompt s) (api_key s)
          (project_prompt s).
Definition set_feedback (k v : string) (s : session) : session :=
  Session (current_step s) (approved s) (<[k := v]> (feedback s))
          (generated_content s) (show_completion_prompt s) (api_key s)
          (project_prompt s).
Definition set_generated_content (k v : string) (s : session) : session :=
  Session (current_step s) (approved s) (feedback s)
          (<[k := v]> (generated_content s)) (show_completion_prompt s)
          (api_key s) (project_prompt s).
Definition set_show_completion_prompt (v : bool) (s : session) : session :=
  Session (current_step s) (approved s) (feedback s) (generated_content s)
          v (api_key s) (project_prompt s).
Definition set_intake (k p : string) (s : session) : session :=
  Session (current_step s) (approved s) (feedback s) (generated_content s)
          (show_completion_prompt s) (Some k) (Some p).

(** ** generate_with_groq (lines 58-76) *)

Definition system_prompt (step : string) : string :=
  "Expert SDLC assistant. Provide detailed output for " +:+ step +:+ ".".

Definition generate_with_groq (w : run_input) (prompt step : string) : script string :=
  emit (Generate prompt step);;
  s ← get;
  match completion w (api_key s) (system_prompt step) prompt with
  | inl text => mret text
  | inr e => emit (Error ("Error: " +:+ e));; mret ""
  end.

(** ** check_workflow_completion (lines 187-191) *)

Definition approved_get (s : session) (k : string) : bool :=
  default false (approved s !! k).

Definition check_workflow_completion (s : session) : bool :=
  let approved_steps :=
    List.filter (λ st, negb (String.eqb (id st) "api_input") && approved_get s (id st))
                WORKFLOW_STEPS in
  Nat.eqb (length approved_steps) (length WORKFLOW_STEPS - 1).

(** ** download_entire_workflow (lines 87-108)

    The function returns [json.dumps(workflow_data, indent=2)]; the model
    returns the [workflow_data] that is serialised. *)

Definition export_steps (s : session) (l : list step) : gmap string step_export :=
  foldl (λ acc st,
           let step_id := id st in
           match generated_content s !! step_id with
           | Some c =>
               <[step_id := StepExport c (default "" (feedback s !! step_id))
                                       (approved_get s step_id)]> acc
           | None => acc
           end) ∅ l.

Definition download_entire_workflow (w : run_input) : script workflow_data :=
  s ← get;
  let workflow_data :=
    WorkflowData (default "" (project_prompt s)) (now_isoformat w)
                 (export_steps s WORKFLOW_STEPS) in
  when (check_workflow_completion s) (modify (set_show_completion_prompt true));;
  mret workflow_data.

(** ** move_to_next_step (lines 179-184) *)

Fixpoint index_of (x : string) (l : list step) : option nat :=
  match l with
  | [] => None
  | st :: l' => if String.eqb (id st) x then Some 0 else S <$> index_of x l'
  end.

Definition move_to_next_step : script unit :=
  s ← get;
  match index_of (current_step s) WORKFLOW_STEPS with
  | None => break (Raise "StopIteration")
  | Some current_index =>
      if Nat.ltb current_index (length WORKFLOW_STEPS - 1) then
        match WORKFLOW_STEPS !! (current_index + 1) with
        | Some st => modify (set_current_step (id st));; break Rerun
        | None => break (Raise "IndexError")
        end
      else mret tt
  end.

(** ** render_api_input (lines 124-139) *)

Definition render_api_input (w : run_input) : script unit :=
  modify (set_intake (api_key_input w) (project_input w));;
  when (pressed w BtnStart)
    (if negb (truthy (api_key_input w)) then emit (Warning "Please enter API key")
     else if negb (truthy (project_input w)) then
       emit (Warning "Please enter project description")
     else modify (set_current_step "user_stories");; break Rerun).

(** ** render_sdlc_step (lines 141-177) *)

Definition feedback_pending (step_id : string) (s : session) : bool :=
  match feedback s !! step_id with
  | Some text => truthy text
  | None => false
  end.

(** The condition of line 143. *)
Definition needs_generation (step_id : string) (s : session) : bool :=
  match generated_content s !! step_id with
  | None => true
  | Some _ => false
  end || feedback_pending step_id s.

Fixpoint replace_char (a b : ascii) (s : string) : string :=
  match s with
  | EmptyString => EmptyString
  | String c rest => String (if Ascii.eqb c a then b else c) (replace_char a b rest)
  end.

(** Lines 144-146. *)
Definition build_prompt (step_id : string) : script string :=
  s ← get;
  let template := default "" (PROMPT_TEMPLATES !! step_id) in
  match project_prompt s with
  | None => break (Raise "AttributeError")
  | Some description =>
      match format template description with
      | None => break (Raise "ValueError")
      | Some prompt =>
          match feedback s !! step_id with
          | Some text =>
              if truthy text
              then mret (prompt +:+ nl +:+ nl +:+ "Feedback: " +:+ text)
              else mret prompt
          | None => mret prompt
          end
      end
  end.

(** Lines 143-149: the content of the stage is (re)generated and stored. *)
Definition generate_if_needed (w : run_input) (step_id : string) : script unit :=
  s ← get;
  when (needs_generation step_id s)
    (prompt ← build_prompt step_id;
     emit (Spinner ("Generating " +:+ replace_char "_" " " step_id +:+ "..."));;
     text ← generate_with_groq w prompt step_id;
     modify (set_generated_content step_id text)).

(** Lines 156-158: the body of the Approve button. *)
Definition approve_clicked (step_id : string) : script unit :=
  modify (set_approved step_id true);;
  move_to_next_step.

(** Lines 163-168: the body of the Submit button of "Request Changes". *)
Definition submit_clicked (step_id text : string) : script unit :=
  if truthy text then
    modify (set_feedback step_id text);;
    modify (set_approved step_id false);;
    break Rerun
  else emit (Warning "Please enter feedback").

Definition render_sdlc_step (w : run_input) (step_id : string) : script unit :=
  generate_if_needed w step_id;;
  s ← get;
  match generated_content s !! step_id with
  | None => break (Raise "KeyError")
  | Some text =>
      emit (Markdown text);;
      when (pressed w (BtnApprove step_id)) (approve_clicked step_id);;
      when (pressed w (BtnSubmit step_id))
        (submit_clicked step_id (feedback_input w step_id));;
      when (truthy text) (emit (DownloadText ("download_" +:+ step_id) text))
  end.

(** ** render_step (lines 110-122) *)

Definition find_step (step_id : string) : option step :=
  List.find (λ st, String.eqb (id st) step_id) WORKFLOW_STEPS.

Definition render_step (w : run_input) (step_id : string) : script unit :=
  match find_step step_id with
  | None => emit (Error "Invalid step")
  | Some step_info =>
      emit (Header (label step_info));;
      if String.eqb step_id "api_input" then render_api_input w
      else render_sdlc_step w step_id
  end.

(** ** render_completion_prompt (lines 259-277)

    [st.session_state.clear()] removes every field; line 271 restarts the
    script at once, and the initialisation block (lines 8-18) of that run
    recreates the workflow fields before anything reads them.  [reset] is the
    state after that block. *)

Definition reset (s : session) : session :=
  Session "api_input" ∅ ∅ ∅ false (Some (default "" (api_key s))) None.

Definition render_completion_prompt (w : run_input) : script unit :=
  emit (Success "🎉 SDLC workflow completed and downloaded successfully!");;
  when (pressed w BtnStartNew) (modify reset;; break Rerun);;
  when (pressed w BtnQuit)
    (emit (Markdown "### Thank you for using SDLC Assistant!");;
     emit (Markdown "> You can safely close this browser tab.");;
     break Stopped).

(** ** The script (sidebar, lines 194-257; main area, lines 280-283)

    The sidebar's list of stages, the drawing of its progress bar and the
    names of the downloaded files (get_download_filename, which reads the
    clock) only format what is shown; they assign nothing in the session and
    are not part of the trace. *)

(** The sidebar's progress figures (lines 245-246). *)

Definition approved_count (s : session) : nat :=
  size (filter (λ kv, kv.2 = true) (approved s)).

Definition total_steps : nat := length WORKFLOW_STEPS - 1.

(** [st.progress] (lines 247-248) is given
    [approved_count / total_steps if total_steps > 0 else 0] and refuses a
    value outside 0..1 with a StreamlitAPIException. *)
Definition progress_in_range (s : session) : bool :=
  if Nat.ltb 0 total_steps then Nat.leb (approved_count s) total_steps else true.

Definition sidebar (w : run_input) : script unit :=
  emit (Header "SDLC Workflow");;
  s ← get;
  (if progress_in_range s then mret tt
   else break (Raise "StreamlitAPIException"));;
  when (negb (String.eqb (current_step s) "api_input"))
    (data ← download_entire_workflow w;
     emit (DownloadJson "download_full" data)).

Definition app (w : run_input) : script unit :=
  sidebar w;;
  s ← get;
  if show_completion_prompt s then render_completion_prompt w
  else render_step w (current_step s).

(** ** Notions used in the statements *)

(** The registry without its first entry, the intake stage. *)
Definition non_intake_steps : list step := tail WORKFLOW_STEPS.

(** The [steps] entry that the export holds for a stage with content. *)
Definition export_entry (s : session) (step_id content : string) : step_export :=
  StepExport content (default "" (feedback s !! step_id))
             (default false (approved s !! step_id)).

(** What generate_with_groq returns for a prompt: the service's text, or the
    empty string when the call fails. *)
Definition generated_text (w : run_input) (step_id prompt : string) (s : session) : string :=
  match completion w (api_key s) (system_prompt step_id) prompt with
  | inl text => text
  | inr _ => ""
  end.

(** Whether a trace contains a call of the content generator. *)
Definition is_generate (e : event) : bool :=
  match e with
  | Generate _ _ => true
  | _ => false
  end.

Definition calls_generator (t : list event) : bool := existsb is_generate t.

Definition quiet {A} (m : script A) : Prop :=
  ∀ s, calls_generator (trace (m s)) = false.

(** A property of the session that a script keeps, stated on the state the
    run leaves behind whatever its result: a run can be cut short anywhere. *)
Definition preserves (I : session → Prop) {A} (m : script A) : Prop :=
  ∀ s, I s → I (state (m s)).

(** A sequence of script runs, one per user interaction or re-run. *)
Definition runs (ws : list run_input) (s : session) : session :=
  foldl (λ s w, state (app w s)) s ws.

(** A prompt with the stage's feedback, when there is some, appended as
    lines 145-146 do. *)
Definition with_feedback (prompt : string) (stored : option string) : string :=
  match stored with
  | Some text =>
      if truthy text then prompt +:+ nl +:+ nl +:+ "Feedback: " +:+ text else prompt
  | None => prompt
  end.

(** The keys of PROMPT_TEMPLATES. *)
Definition templated_steps : list string :=
  ["user_stories"; "design_docs"; "code_generation"; "test_cases"; "deployment"].

(** ** Sessions the script can be in *)

(** A key of the per-stage dictionaries: a registry id other than the
    intake stage. *)
Definition stage_key (k : string) : Prop :=
  k ∈ step_ids ∧ k ≠ "api_input".

(** What holds of the session at the start of every run (see
    [reachable_sessions]). *)
Record wf (s : session) : Prop := Wf {
  wf_current : current_step s ∈ step_ids;
  wf_intake :
    current_step s ≠ "api_input" →
    ∃ k p, api_key s = Some k ∧ k ≠ "" ∧ project_prompt s = Some p ∧ p ≠ "";
  wf_generated : ∀ k, is_Some (generated_content s !! k) → stage_key k;
  wf_approved : ∀ k, is_Some (approved s !! k) → stage_key k;
  wf_feedback : ∀ k text, feedback s !! k = Some text → stage_key k ∧ text ≠ ""
}.

(** Postconditions of a run: one for a normal end, one for a run cut short. *)
Definition post {A} (o : outcome A)
    (Qn : A → session → Prop) (Qi : interrupt → session → Prop) : Prop :=
  match result o with
  | inl a => Qn a (state o)
  | inr i => Qi i (state o)
  end.

Definition triple {A} (P : session → Prop) (m : script A)
    (Qn : A → session → Prop) (Qi : interrupt → session → Prop) : Prop :=
  ∀ s, P s → post (m s) Qn Qi.

(** A run cut short by [st.rerun()] or [st.stop()], not by an exception. *)
Definition controlled (Q : session → Prop) (i : interrupt) (s : session) : Prop :=
  (∀ e, i ≠ Raise e) ∧ Q s.

(** [wf], on the page of stage [c]. *)
Definition at_stage (c : string) (s : session) : Prop :=
  wf s ∧ current_step s = c.

(** Position of the current stage in the registry. *)
Definition current_index (s : session) : option nat :=
  index_of (current_step s) WORKFLOW_STEPS.

(** The non-intake stages that are not keys of PROMPT_TEMPLATES. *)
Definition untemplated_steps : list string :=
  ["code_review"; "security_review"; "qa_testing"; "monitoring"].

(** The session while the user approves stage after stage: the first [i]
    registry entries are behind, entry [i] (the last one, once all are
    approved) is the current step. *)
Definition progressed (i : nat) (s : session) : Prop :=
  wf s ∧ show_completion_prompt s = false ∧
  step_ids !! (i `min` 9) = Some (current_step s) ∧
  (∀ (j : nat) k, (1 ≤ j)%nat → (j < i)%nat → step_ids !! j = Some k →
            approved s !! k = Some true) ∧
  (∀ (j : nat) k, (i ≤ j)%nat → step_ids !! j = Some k → approved s !! k = None).

(** The buttons pressed in a sequence of runs, the runs without a click
    (the re-runs after [st.rerun()], among others) left out. *)
Definition clicks (ws : list run_input) : list button := omap clicked ws.

(** Approve on every non-intake stage, in registry order. *)
Definition approval_clicks : list button := BtnApprove <$> tail step_ids.

(** The session on the intake page, before the workflow has started. *)
Definition on_intake (s : session) : Prop :=
  wf s ∧ show_completion_prompt s = false ∧
  current_step s = "api_input" ∧ approved s = ∅.

(** The session once every stage is approved. *)
Definition all_approved (s : session) : Prop :=
  wf s ∧ current_step s = "monitoring" ∧ check_workflow_completion s = true.

(** Where the user is after approving the stages before registry entry [i]. *)
Definition phase (i : nat) (s : session) : Prop :=
  ((i < 10)%nat ∧ progressed i s) ∨ ((10 ≤ i)%nat ∧ all_approved s).

(** ** Sample sessions and inputs *)

Definition demo_session : session :=
  Session "user_stories" ∅ ∅ ∅ false (Some "gsk-demo")
          (Some "Smart pen with IoT capabilities").

Definition demo_input (click : option button) : run_input :=
  RunInput click "gsk-demo" "Smart pen with IoT capabilities" (λ _, "")
           "2026-01-01T09:00:00" (λ _ _ prompt, inl ("Draft. " +:+ prompt)).

Definition offline_input (click : option button) : run_input :=
  RunInput click "gsk-demo" "Smart pen with IoT capabilities" (λ _, "")
           "2026-01-01T09:00:00" (λ _ _ _, inr "Connection error.").

Definition revising_session : session :=
  Session "user_stories" ∅ {["user_stories" := "make it shorter"]}
          {["user_stories" := "As a user, ..."]} false (Some "gsk-demo")
          (Some "Smart pen with IoT capabilities").

(** A session with more approvals than stages (the intake stage approved
    too); no run of the script produces it. *)
Definition overfull_session : session :=
  Session "monitoring"
          (list_to_map ((λ st, (id st, true)) <$> WORKFLOW_STEPS))
          ∅ ∅ false (Some "gsk-demo") (Some "Smart pen with IoT capabilities").

Definition finished_session : session :=
  Session "monitoring"
          (list_to_map ((λ st, (id st, true)) <$> non_intake_steps))
          {["monitoring" := "add alerting"]}
          {["monitoring" := "Dashboards and alerts."]}
          true (Some "gsk-demo") (Some "Smart pen with IoT capabilities").

Ltac in_registry := apply (bool_decide_unpack _); vm_compute; reflexivity.

(** * Properties *)

Example registry_size : length WORKFLOW_STEPS = 10.
Proof. reflexivity. Qed.

Example format_user_stories :
  (t ← PROMPT_TEMPLATES !! "user_stories"; format t "a pen") =
  Some "Generate comprehensive user stories for: a pen. Include acceptance criteria.".
Proof. vm_compute. reflexivity. Qed.

Lemma truthy_true (text : string) : truthy text = true ↔ text ≠ "".
Proof. destruct text; simpl; split; intros; congruence. Qed.

Lemma truthy_false (text : string) : truthy text = false ↔ text = "".
Proof. destruct text; simpl; split; intros; congruence. Qed.

Lemma approved_get_true s k : approved_get s k = true ↔ approved s !! k = Some true.
Proof.
  unfold approved_get. destruct (approved s !! k) as [[]|]; simpl; split; congruence.
Qed.

(** ** Completion predicate *)

Lemma filter_length_all {A} (f : A → bool) (l : list A) :
  length (List.filter f l) = length l ↔ Forall (λ x, f x = true) l.
Proof.
  induction l as [|x l IH]; simpl.
  - split; [constructor | reflexivity].
  - pose proof (List.filter_length_le f l) as Hle.
    destruct (f x) eqn:Hx; simpl.
    + split.
      * intros Hlen. constructor; [assumption | apply IH; lia].
      * intros Hall. inversion Hall; subst. f_equal. apply IH. assumption.
    + split; [lia |]. intros Hall. inversion Hall; congruence.
Qed.

Lemma completion_filter s :
  List.filter (λ st, negb (String.eqb (id st) "api_input") && approved_get s (id st))
              WORKFLOW_STEPS =
  List.filter (λ st, approved_get s (id st)) non_intake_steps.
Proof.
  change WORKFLOW_STEPS with (Step "api_input" "🤖 AI Powered Automation" "fa-key" "#2196F3"
                                :: non_intake_steps).
  cbn [List.filter id]. rewrite String.eqb_refl. cbn [negb andb].
  apply List.filter_ext_in. intros st Hin.
  assert (String.eqb (id st) "api_input" = false) as ->; [| reflexivity].
  unfold non_intake_steps in Hin. simpl in Hin.
  repeat (destruct Hin as [<- | Hin]; [reflexivity |]). destruct Hin.
Qed.

Lemma non_intake_ids step_id :
  step_id ∈ (id <$> non_intake_steps) ↔ step_id ∈ step_ids ∧ step_id ≠ "api_input".
Proof.
  unfold step_ids, non_intake_steps. simpl. rewrite !elem_of_cons, elem_of_nil.
  split.
  - intros H. repeat (destruct H as [-> | H]; [split; [tauto | discriminate] |]).
    destruct H.
  - intros [H Hne]. tauto.
Qed.

(** C5.  [check_workflow_completion] answers true exactly when every stage of
    the registry other than the intake stage [api_input] has its [approved]
    entry equal to [True]. *)
Theorem check_workflow_completion_iff (s : session) :
  check_workflow_completion s = true ↔
  ∀ step_id, step_id ∈ step_ids → step_id ≠ "api_input" →
             approved s !! step_id = Some true.
Proof.
  unfold check_workflow_completion. rewrite completion_filter.
  rewrite Nat.eqb_eq.
  change (length WORKFLOW_STEPS - 1) with (length non_intake_steps).
  rewrite filter_length_all, Forall_forall.
  split.
  - intros Hall step_id Hin Hne.
    assert (step_id ∈ (id <$> non_intake_steps)) as Hmem by (apply non_intake_ids; auto).
    apply list_elem_of_fmap in Hmem as (st & -> & Hst).
    apply approved_get_true, Hall, Hst.
  - intros Hall st Hst. apply approved_get_true.
    assert (id st ∈ (id <$> non_intake_steps)) as Hmem
      by (apply list_elem_of_fmap; eauto).
    apply non_intake_ids in Hmem as [? ?]. auto.
Qed.

(** ** Regeneration predicate *)

Lemma needs_generation_iff step_id s :
  needs_generation step_id s = true ↔
  generated_content s !! step_id = None ∨
  ∃ text, feedback s !! step_id = Some text ∧ text ≠ "".
Proof.
  unfold needs_generation, feedback_pending.
  destruct (generated_content s !! step_id) as [c|]; simpl; [| tauto].
  destruct (feedback s !! step_id) as [text|]; simpl.
  - rewrite truthy_true. split.
    + intros H. right. eauto.
    + intros [H | (t & Ht & Hne)]; congruence.
  - split; [discriminate |]. intros [H | (t & Ht & _)]; discriminate.
Qed.

(** ** Export *)

Lemma export_steps_foldl s (l : list step) (acc : gmap string step_export) step_id :
  foldl (λ acc st,
           match generated_content s !! id st with
           | Some c =>
               <[id st := StepExport c (default "" (feedback s !! id st))
                                     (approved_get s (id st))]> acc
           | None => acc
           end) acc l !! step_id =
  if decide (step_id ∈ id <$> l) then
    match generated_content s !! step_id with
    | Some c => Some (export_entry s step_id c)
    | None => acc !! step_id
    end
  else acc !! step_id.
Proof.
  revert acc. induction l as [|st l IH]; intros acc; cbn [foldl]; rewrite ?fmap_nil, ?fmap_cons.
  - rewrite decide_False; [reflexivity | apply not_elem_of_nil].
  - rewrite IH. destruct (decide (step_id ∈ id <$> l)) as [Hin | Hnin].
    + rewrite decide_True by (right; assumption).
      destruct (generated_content s !! step_id) eqn:Hgc; [reflexivity |].
      destruct (generated_content s !! id st) eqn:Hst; [| reflexivity].
      apply lookup_insert_ne. congruence.
    + destruct (decide (step_id = id st)) as [-> | Hne].
      * rewrite decide_True by left.
        destruct (generated_content s !! id st); [| reflexivity].
        rewrite lookup_insert_eq. reflexivity.
      * rewrite decide_False by (rewrite elem_of_cons; tauto).
        destruct (generated_content s !! id st); [| reflexivity].
        apply lookup_insert_ne. congruence.
Qed.

Lemma export_steps_lookup s step_id :
  export_steps s WORKFLOW_STEPS !! step_id =
  if decide (step_id ∈ step_ids)
  then export_entry s step_id <$> generated_content s !! step_id
  else None.
Proof.
  unfold export_steps. rewrite export_steps_foldl. fold step_ids.
  destruct (decide (step_id ∈ step_ids)); [| apply lookup_empty].
  destruct (generated_content s !! step_id); [reflexivity | apply lookup_empty].
Qed.

Lemma download_entire_workflow_run w s :
  download_entire_workflow w s =
  Outcome (inl (WorkflowData (default "" (project_prompt s)) (now_isoformat w)
                             (export_steps s WORKFLOW_STEPS)))
          (if check_workflow_completion s then set_show_completion_prompt true s else s)
          [].
Proof.
  unfold download_entire_workflow, mbind, script_bind, get, when, modify, mret, script_ret.
  simpl. destruct (check_workflow_completion s); reflexivity.
Qed.

(** C6.  The export document has a [steps] entry for a stage id of the
    registry exactly when that id is a key of [generated_content]; the entry
    carries the stored content, the stage's feedback (the empty string when
    there is none) and its approved flag ([False] when there is none).  Ids
    without generated content, and ids outside the registry, have no entry. *)
Theorem export_covers_generated_stages (w : run_input) (s : session) :
  ∃ data, result (download_entire_workflow w s) = inl data ∧
    project data = default "" (project_prompt s) ∧
    (∀ step_id,
       steps data !! step_id =
       if decide (step_id ∈ step_ids)
       then (λ c, StepExport c (default "" (feedback s !! step_id))
                             (default false (approved s !! step_id)))
              <$> generated_content s !! step_id
       else None) ∧
    dom (steps data) = dom (generated_content s) ∩ list_to_set step_ids.
Proof.
  rewrite download_entire_workflow_run. eexists. split; [reflexivity |].
  cbn [project steps]. split; [reflexivity |]. split.
  - intros step_id. apply export_steps_lookup.
  - apply set_eq. intros step_id.
    rewrite elem_of_intersection, !elem_of_dom, elem_of_list_to_set, export_steps_lookup.
    destruct (decide (step_id ∈ step_ids)) as [Hin | Hnin].
    + rewrite fmap_is_Some. tauto.
    + split; [intros [? ?]; discriminate | tauto].
Qed.

(** C9.  [download_entire_workflow] sets [show_completion_prompt] to [True]
    when [check_workflow_completion] holds and leaves it as it was otherwise;
    every other field of the session is left as it was. *)
Theorem download_entire_workflow_frame (w : run_input) (s : session) :
  let s' := state (download_entire_workflow w s) in
  show_completion_prompt s' =
    (if check_workflow_completion s then true else show_completion_prompt s) ∧
  generated_content s' = generated_content s ∧
  feedback s' = feedback s ∧
  approved s' = approved s ∧
  current_step s' = current_step s ∧
  project_prompt s' = project_prompt s ∧
  api_key s' = api_key s.
Proof.
  rewrite download_entire_workflow_run. simpl.
  destruct (check_workflow_completion s); simpl; tauto.
Qed.

(** ** Running scripts *)

Lemma run_bind {A B} (m : script A) (k : A → script B) s :
  (m ≫= k) s =
  match result (m s) with
  | inl a => Outcome (result (k a (state (m s)))) (state (k a (state (m s))))
                     (trace (m s) ++ trace (k a (state (m s))))
  | inr i => Outcome (inr i) (state (m s)) (trace (m s))
  end.
Proof. reflexivity. Qed.

Lemma run_bind_get {A} (k : session → script A) s : (get ≫= k) s = k s s.
Proof. rewrite run_bind. simpl. destruct (k s s); reflexivity. Qed.

Lemma run_bind_modify {A} f (k : unit → script A) s : (modify f ≫= k) s = k tt (f s).
Proof. rewrite run_bind. simpl. destruct (k tt (f s)); reflexivity. Qed.

Lemma run_bind_break {A B} i (k : A → script B) s :
  (break i ≫= k) s = Outcome (inr i) s [].
Proof. reflexivity. Qed.

Lemma run_bind_ret {A B} (a : A) (k : A → script B) s : (mret a ≫= k) s = k a s.
Proof. rewrite run_bind. simpl. destruct (k a s); reflexivity. Qed.

Lemma state_bind {A B} (m : script A) (k : A → script B) s :
  state ((m ≫= k) s) =
  match result (m s) with
  | inl a => state (k a (state (m s)))
  | inr _ => state (m s)
  end.
Proof. rewrite run_bind. destruct (result (m s)); reflexivity. Qed.

(** ** Approval *)

Lemma step_ids_NoDup : NoDup step_ids.
Proof. apply (bool_decide_unpack _). vm_compute. reflexivity. Qed.

Lemma index_of_lookup (l : list step) (i : nat) (x : string) :
  NoDup (id <$> l) → (id <$> l) !! i = Some x → index_of x l = Some i.
Proof.
  revert i. induction l as [|[k ? ? ?] l IH]; intros i Hnd Hi; [discriminate |].
  rewrite fmap_cons in Hnd, Hi. apply NoDup_cons in Hnd as [Hfresh Hnd].
  destruct i as [|i]; simpl in *.
  - injection Hi as ->. rewrite String.eqb_refl. reflexivity.
  - assert (String.eqb k x = false) as ->.
    { apply String.eqb_neq. intros ->. apply Hfresh.
      eapply list_elem_of_lookup_2; eassumption. }
    rewrite (IH i Hnd Hi). reflexivity.
Qed.

Lemma move_to_next_step_run (s : session) (i : nat) :
  step_ids !! i = Some (current_step s) →
  move_to_next_step s =
  match step_ids !! S i with
  | Some next => Outcome (inr Rerun) (set_current_step next s) []
  | None => Outcome (inl tt) s []
  end.
Proof.
  intros Hi. unfold move_to_next_step. rewrite run_bind_get.
  rewrite (index_of_lookup _ i _ step_ids_NoDup Hi).
  unfold step_ids. rewrite list_lookup_fmap. replace (i + 1) with (S i) by lia.
  change (length WORKFLOW_STEPS - 1) with 9.
  destruct (Nat.ltb_spec i 9) as [Hlt | Hge].
  - destruct (lookup_lt_is_Some_2 WORKFLOW_STEPS (S i)) as [st Hst];
      [simpl; lia |].
    rewrite Hst. reflexivity.
  - rewrite (lookup_ge_None_2 WORKFLOW_STEPS (S i)) by (simpl; lia). reflexivity.
Qed.

(** C2.  When the stage whose Approve button is pressed is the current stage,
    the button's body sets [approved[step_id] = True] and moves
    [current_step] to the registry entry right after it; for the last entry
    [current_step] stays where it is.  Nothing else in the session changes. *)
Theorem approve_advances_to_next (i : nat) (step_id : string) (s : session) :
  step_ids !! i = Some step_id →
  current_step s = step_id →
  let s' := state (approve_clicked step_id s) in
  approved s' = <[step_id := true]> (approved s) ∧
  current_step s' = default step_id (step_ids !! S i) ∧
  feedback s' = feedback s ∧
  generated_content s' = generated_content s ∧
  show_completion_prompt s' = show_completion_prompt s.
Proof.
  intros Hi Hcur. unfold approve_clicked. rewrite run_bind_modify.
  rewrite (move_to_next_step_run _ i) by (simpl; congruence).
  destruct (step_ids !! S i); simpl; rewrite ?Hcur; tauto.
Qed.

(** C7.  The body of the Submit button: with an empty text it only shows the
    warning and the session is left as it was; with a non-empty text it
    stores the text as [feedback[step_id]], sets [approved[step_id] = False],
    leaves [current_step] (and every other field) alone, and asks for a
    re-run so that the same stage is rendered again. *)
Theorem submit_feedback_spec (step_id text : string) (s : session) :
  current_step s = step_id →
  (text = "" →
     submit_clicked step_id text s =
     Outcome (inl tt) s [Warning "Please enter feedback"]) ∧
  (text ≠ "" →
     let o := submit_clicked step_id text s in
     result o = inr Rerun ∧
     feedback (state o) = <[step_id := text]> (feedback s) ∧
     approved (state o) = <[step_id := false]> (approved s) ∧
     current_step (state o) = current_step s ∧
     generated_content (state o) = generated_content s ∧
     show_completion_prompt (state o) = show_completion_prompt s).
Proof.
  intros _. unfold submit_clicked. split.
  - intros ->. reflexivity.
  - intros Hne. apply truthy_true in Hne. rewrite Hne.
    rewrite !run_bind_modify. simpl. tauto.
Qed.

(** ** Properties that every step of a run keeps *)

Section preservation.
Context (I : session → Prop).

Lemma preserves_ret {A} (a : A) : preserves I (mret a).
Proof. intros s Hs. exact Hs. Qed.

Lemma preserves_emit e : preserves I (emit e).
Proof. intros s Hs. exact Hs. Qed.

Lemma preserves_break {A} i : preserves I (@break A i).
Proof. intros s Hs. exact Hs. Qed.

Lemma preserves_modify f : (∀ s, I s → I (f s)) → preserves I (modify f).
Proof. intros Hf s Hs. apply Hf, Hs. Qed.

Lemma preserves_bind {A B} (m : script A) (k : A → script B) :
  preserves I m → (∀ a, preserves I (k a)) → preserves I (m ≫= k).
Proof.
  intros Hm Hk s Hs. rewrite state_bind.
  destruct (result (m s)); [apply Hk |]; apply Hm, Hs.
Qed.

Lemma preserves_get_bind {A} (k : session → script A) :
  (∀ s, I s → I (state (k s s))) → preserves I (get ≫= k).
Proof. intros Hk s Hs. rewrite run_bind_get. apply Hk, Hs. Qed.

Lemma preserves_when (b : bool) m :
  (b = true → preserves I m) → preserves I (when b m).
Proof. destruct b; intros Hm; [apply Hm; reflexivity | apply preserves_ret]. Qed.

Lemma move_to_next_step_preserves :
  (∀ v s, I s → I (set_current_step v s)) → preserves I move_to_next_step.
Proof.
  intros Hset. unfold move_to_next_step. apply preserves_get_bind. intros s Hs.
  destruct (index_of _ _); [| exact Hs].
  destruct (Nat.ltb _ _); [| exact Hs].
  destruct (WORKFLOW_STEPS !! _); [| exact Hs].
  rewrite run_bind_modify. apply Hset, Hs.
Qed.

Lemma approve_clicked_preserves step_id :
  (∀ s, I s → I (set_approved step_id true s)) →
  (∀ v s, I s → I (set_current_step v s)) →
  preserves I (approve_clicked step_id).
Proof.
  intros Ha Hc. apply preserves_bind; [apply preserves_modify, Ha |].
  intros _. apply move_to_next_step_preserves, Hc.
Qed.

Lemma submit_clicked_preserves step_id text :
  (text ≠ "" → ∀ s, I s → I (set_approved step_id false (set_feedback step_id text s))) →
  preserves I (submit_clicked step_id text).
Proof.
  intros Hset s Hs. unfold submit_clicked. destruct (truthy text) eqn:Ht; [| exact Hs].
  rewrite !run_bind_modify. apply Hset; [apply truthy_true, Ht | exact Hs].
Qed.

(** The whole script, in terms of what its assignments do to [I]. *)
Context (w : run_input).
Hypothesis keeps_show : ∀ s, I s → I (set_show_completion_prompt true s).
Hypothesis keeps_intake :
  ∀ s, I s → I (set_intake (api_key_input w) (project_input w) s).
Hypothesis keeps_generated : ∀ k v s, I s → I (set_generated_content k v s).
Hypothesis keeps_reset : pressed w BtnStartNew = true → ∀ s, I s → I (reset s).
Hypothesis keeps_start :
  pressed w BtnStart = true → ∀ s, I s → I (set_current_step "user_stories" s).
Hypothesis keeps_approve :
  ∀ s0, I s0 → pressed w (BtnApprove (current_step s0)) = true →
        preserves I (approve_clicked (current_step s0)).
Hypothesis keeps_submit :
  ∀ s0, I s0 → pressed w (BtnSubmit (current_step s0)) = true →
        preserves I (submit_clicked (current_step s0)
                                    (feedback_input w (current_step s0))).

Lemma download_entire_workflow_preserves : preserves I (download_entire_workflow w).
Proof.
  intros s Hs. rewrite download_entire_workflow_run. simpl.
  destruct (check_workflow_completion s); [apply keeps_show |]; exact Hs.
Qed.

Lemma sidebar_preserves : preserves I (sidebar w).
Proof.
  apply preserves_bind; [apply preserves_emit |]. intros _.
  apply preserves_get_bind. intros s Hs. apply preserves_bind; [| | exact Hs].
  - destruct (progress_in_range s); [apply preserves_ret | apply preserves_break].
  - intros _. apply preserves_when. intros _.
    apply preserves_bind; [apply download_entire_workflow_preserves |].
    intros data. apply preserves_emit.
Qed.

Lemma generate_with_groq_preserves prompt step :
  preserves I (generate_with_groq w prompt step).
Proof.
  apply preserves_bind; [apply preserves_emit |]. intros _.
  apply preserves_get_bind. intros s Hs.
  destruct (completion w _ _ _); exact Hs.
Qed.

Lemma build_prompt_preserves step_id : preserves I (build_prompt step_id).
Proof.
  apply preserves_get_bind. intros s Hs. cbv zeta.
  destruct (project_prompt s); [| exact Hs].
  destruct (format _ _); [| exact Hs].
  destruct (feedback s !! step_id) as [text|]; [| exact Hs].
  destruct (truthy text); exact Hs.
Qed.

Lemma generate_if_needed_preserves step_id : preserves I (generate_if_needed w step_id).
Proof.
  apply preserves_get_bind. intros s Hs. apply preserves_when; [intros _ | exact Hs].
  apply preserves_bind; [apply build_prompt_preserves |]. intros prompt.
  apply preserves_bind; [apply preserves_emit |]. intros _.
  apply preserves_bind; [apply generate_with_groq_preserves |]. intros text.
  apply preserves_modify. intros s'. apply keeps_generated.
Qed.

Lemma render_sdlc_step_preserves s0 :
  I s0 → preserves I (render_sdlc_step w (current_step s0)).
Proof.
  intros Hs0. apply preserves_bind; [apply generate_if_needed_preserves |]. intros _.
  apply preserves_get_bind. intros s Hs.
  destruct (generated_content s !! current_step s0) as [text|]; [| exact Hs].
  revert s Hs. apply preserves_bind; [apply preserves_emit |]. intros _.
  apply preserves_bind; [apply preserves_when; intros Hp; apply keeps_approve; assumption |].
  intros _.
  apply preserves_bind; [apply preserves_when; intros Hp; apply keeps_submit; assumption |].
  intros _. apply preserves_when. intros _. apply preserves_emit.
Qed.

Lemma render_api_input_preserves : preserves I (render_api_input w).
Proof.
  apply preserves_bind; [apply preserves_modify, keeps_intake |]. intros _.
  apply preserves_when. intros Hp.
  destruct (negb (truthy (api_key_input w))); [apply preserves_emit |].
  destruct (negb (truthy (project_input w))); [apply preserves_emit |].
  apply preserves_bind; [apply preserves_modify, (keeps_start Hp) |].
  intros _. apply preserves_break.
Qed.

Lemma render_step_preserves s0 : I s0 → preserves I (render_step w (current_step s0)).
Proof.
  intros Hs0. unfold render_step. destruct (find_step _); [| apply preserves_emit].
  apply preserves_bind; [apply preserves_emit |]. intros _.
  destruct (String.eqb _ _);
    [apply render_api_input_preserves | apply render_sdlc_step_preserves, Hs0].
Qed.

Lemma render_completion_prompt_preserves : preserves I (render_completion_prompt w).
Proof.
  apply preserves_bind; [apply preserves_emit |]. intros _.
  apply preserves_bind.
  - apply preserves_when. intros Hp.
    apply preserves_bind; [apply preserves_modify, (keeps_reset Hp) |].
    intros _. apply preserves_break.
  - intros _. apply preserves_when. intros _.
    apply preserves_bind; [apply preserves_emit |]. intros _.
    apply preserves_bind; [apply preserves_emit |]. intros _.
    apply preserves_break.
Qed.

Lemma app_preserves : preserves I (app w).
Proof.
  apply preserves_bind; [apply sidebar_preserves |]. intros _.
  apply preserves_get_bind. intros s Hs.
  destruct (show_completion_prompt s);
    [apply render_completion_prompt_preserves | apply render_step_preserves];
    exact Hs.
Qed.
End preservation.

(** ** Approving a stage that is not on the page *)

Lemma pressed_true w b : pressed w b = true ↔ clicked w = Some b.
Proof. apply bool_decide_eq_true. Qed.

Lemma unrendered_approve_is_ignored (w : run_input) (step_id : string) (s : session) :
  clicked w = Some (BtnApprove step_id) →
  current_step s ≠ step_id →
  approved (state (app w s)) = approved s ∧
  current_step (state (app w s)) = current_step s.
Proof.
  intros Hclick Hne.
  apply (app_preserves
           (λ s', approved s' = approved s ∧ current_step s' = current_step s) w);
    try (intros; simpl; assumption); try tauto.
  - intros Hp. apply pressed_true in Hp. congruence.
  - intros Hp. apply pressed_true in Hp. congruence.
  - intros s0 [_ Hcur] Hp. apply pressed_true in Hp. congruence.
  - intros s0 [_ Hcur] Hp. apply pressed_true in Hp. congruence.
Qed.

(** C3.  A second press of the Approve button of [step_id], arriving when
    [step_id] is no longer the current stage after the first one, finds no
    such button on the page: the run leaves [approved] and [current_step]
    exactly as the first press left them. *)
Theorem second_approve_changes_nothing (w1 w2 : run_input) (step_id : string) (s : session) :
  clicked w1 = Some (BtnApprove step_id) →
  clicked w2 = Some (BtnApprove step_id) →
  let s1 := state (app w1 s) in
  current_step s1 ≠ step_id →
  let s2 := state (app w2 s1) in
  approved s2 = approved s1 ∧ current_step s2 = current_step s1.
Proof.
  intros _ Hclick s1 Hne. apply (unrendered_approve_is_ignored w2 step_id s1 Hclick Hne).
Qed.

(** ** Generation *)

Lemma build_prompt_run step_id s :
  build_prompt step_id s = Outcome (result (build_prompt step_id s)) s [].
Proof.
  unfold build_prompt. rewrite run_bind_get. cbv zeta.
  destruct (project_prompt s); [| reflexivity].
  destruct (format _ _); [| reflexivity].
  destruct (feedback s !! step_id) as [text|]; [| reflexivity].
  destruct (truthy text); reflexivity.
Qed.

Lemma format_template_total step_id description :
  is_Some (format (default "" (PROMPT_TEMPLATES !! step_id)) description).
Proof.
  unfold PROMPT_TEMPLATES. rewrite !lookup_insert, lookup_empty.
  repeat case_decide; simpl default; eexists; vm_compute; reflexivity.
Qed.

Lemma build_prompt_ok step_id s :
  is_Some (project_prompt s) → ∃ prompt, result (build_prompt step_id s) = inl prompt.
Proof.
  intros [description Hp]. unfold build_prompt. rewrite run_bind_get, Hp. cbv zeta.
  destruct (format_template_total step_id description) as [prompt ->].
  destruct (feedback s !! step_id) as [text|]; [destruct (truthy text) |]; eexists; reflexivity.
Qed.

Lemma generate_with_groq_run w prompt step s :
  generate_with_groq w prompt step s =
  Outcome (inl (generated_text w step prompt s)) s
          (Generate prompt step ::
           match completion w (api_key s) (system_prompt step) prompt with
           | inl _ => []
           | inr e => [Error ("Error: " +:+ e)]
           end).
Proof.
  unfold generate_with_groq, generated_text. rewrite run_bind.
  cbn [emit result state trace]. rewrite run_bind_get.
  destruct (completion w _ _ _); reflexivity.
Qed.

Lemma generate_if_needed_skip w step_id s :
  needs_generation step_id s = false →
  generate_if_needed w step_id s = Outcome (inl tt) s [].
Proof. intros Hn. unfold generate_if_needed. rewrite run_bind_get, Hn. reflexivity. Qed.

Lemma generate_if_needed_run w step_id s prompt :
  needs_generation step_id s = true →
  result (build_prompt step_id s) = inl prompt →
  generate_if_needed w step_id s =
  Outcome (inl tt)
          (set_generated_content step_id (generated_text w step_id prompt s) s)
          (Spinner ("Generating " +:+ replace_char "_" " " step_id +:+ "...")
             :: trace (generate_with_groq w prompt step_id s)).
Proof.
  intros Hn Hp. unfold generate_if_needed. rewrite run_bind_get, Hn. unfold when.
  rewrite run_bind, build_prompt_run, Hp. cbn [result state trace].
  rewrite run_bind. cbn [emit result state trace].
  rewrite run_bind, generate_with_groq_run. cbn [result state trace modify app].
  rewrite app_nil_r. reflexivity.
Qed.

Lemma quiet_bind {A B} (m : script A) (k : A → script B) :
  quiet m → (∀ a, quiet (k a)) → quiet (m ≫= k).
Proof.
  intros Hm Hk s. rewrite run_bind. specialize (Hm s).
  destruct (result (m s)); cbn [trace]; [| exact Hm].
  unfold calls_generator in *. rewrite existsb_app, Hm. apply Hk.
Qed.

Lemma quiet_when b m : quiet m → quiet (when b m).
Proof. destruct b; intros Hm; [exact Hm | intros s; reflexivity]. Qed.

Lemma move_to_next_step_quiet : quiet move_to_next_step.
Proof.
  intros s. unfold move_to_next_step. rewrite run_bind_get.
  destruct (index_of _ _); [| reflexivity].
  destruct (Nat.ltb _ _); [| reflexivity].
  destruct (WORKFLOW_STEPS !! _); reflexivity.
Qed.

Lemma approve_clicked_quiet step_id : quiet (approve_clicked step_id).
Proof.
  apply quiet_bind; [intros s; reflexivity |]. intros _. apply move_to_next_step_quiet.
Qed.

Lemma submit_clicked_quiet step_id text : quiet (submit_clicked step_id text).
Proof. intros s. unfold submit_clicked. destruct (truthy text); reflexivity. Qed.

Lemma controls_quiet w step_id text :
  quiet (emit (Markdown text);;
         when (pressed w (BtnApprove step_id)) (approve_clicked step_id);;
         when (pressed w (BtnSubmit step_id))
           (submit_clicked step_id (feedback_input w step_id));;
         when (truthy text) (emit (DownloadText ("download_" +:+ step_id) text))).
Proof.
  apply quiet_bind; [intros s; reflexivity |]. intros _.
  apply quiet_bind; [apply quiet_when, approve_clicked_quiet |]. intros _.
  apply quiet_bind; [apply quiet_when, submit_clicked_quiet |]. intros _.
  apply quiet_when. intros s. reflexivity.
Qed.

Lemma render_sdlc_step_calls w step_id s :
  calls_generator (trace (render_sdlc_step w step_id s)) =
  calls_generator (trace (generate_if_needed w step_id s)).
Proof.
  unfold render_sdlc_step. rewrite run_bind.
  destruct (result (generate_if_needed w step_id s)); [| reflexivity].
  cbn [trace]. unfold calls_generator. rewrite existsb_app.
  rewrite run_bind_get.
  destruct (generated_content _ !! step_id) as [text|].
  - fold (calls_generator). rewrite (controls_quiet w step_id text). apply orb_false_r.
  - apply orb_false_r.
Qed.

(** C4.  The condition under which rendering a stage calls the content
    generator, [needs_generation], is true exactly when the stage has no
    entry in [generated_content] or its feedback is a non-empty string; when
    it is false the render makes no generator call, and when it is true (the
    project description being there to build the prompt from) it makes one. *)
Theorem needs_generation_decides_generation (w : run_input) (step_id : string) (s : session) :
  (needs_generation step_id s = true ↔
     generated_content s !! step_id = None ∨
     ∃ text, feedback s !! step_id = Some text ∧ text ≠ "") ∧
  (needs_generation step_id s = false →
     calls_generator (trace (render_sdlc_step w step_id s)) = false) ∧
  (needs_generation step_id s = true → is_Some (project_prompt s) →
     calls_generator (trace (render_sdlc_step w step_id s)) = true).
Proof.
  split; [apply needs_generation_iff |]. rewrite render_sdlc_step_calls. split.
  - intros Hn. rewrite (generate_if_needed_skip _ _ _ Hn). reflexivity.
  - intros Hn Hp. destruct (build_prompt_ok step_id s Hp) as [prompt Hprompt].
    rewrite (generate_if_needed_run _ _ _ _ Hn Hprompt), generate_with_groq_run.
    reflexivity.
Qed.

(** ** A failing generation call *)

Lemma render_sdlc_step_idle w step_id s :
  clicked w = None →
  state (render_sdlc_step w step_id s) = state (generate_if_needed w step_id s).
Proof.
  intros Hc. unfold render_sdlc_step. rewrite state_bind.
  destruct (result (generate_if_needed w step_id s)); [| reflexivity].
  rewrite run_bind_get.
  destruct (generated_content _ !! step_id) as [text|]; [| reflexivity].
  unfold pressed. rewrite Hc.
  rewrite !bool_decide_eq_false_2 by discriminate.
  destruct (truthy text); reflexivity.
Qed.

(** C1 (as the code has it).  When the completion service fails, the
    generator shows the error and returns the empty string, no exception
    leaves it; the render path stores that empty string as the stage's
    generated content, so the entry is present afterwards, and the next
    render generates again only if the stage has non-empty feedback. *)
Theorem failed_generation_is_stored_as_empty
    (w : run_input) (step_id prompt e : string) (s : session) :
  needs_generation step_id s = true →
  result (build_prompt step_id s) = inl prompt →
  completion w (api_key s) (system_prompt step_id) prompt = inr e →
  result (generate_with_groq w prompt step_id s) = inl "" ∧
  Error ("Error: " +:+ e) ∈ trace (generate_with_groq w prompt step_id s) ∧
  let o := generate_if_needed w step_id s in
  result o = inl tt ∧
  state o = set_generated_content step_id "" s ∧
  generated_content (state o) !! step_id = Some "" ∧
  needs_generation step_id (state o) = feedback_pending step_id s ∧
  (clicked w = None → state (render_sdlc_step w step_id s) = state o).
Proof.
  intros Hn Hp He.
  assert (generated_text w step_id prompt s = "") as Htext
    by (unfold generated_text; rewrite He; reflexivity).
  rewrite generate_with_groq_run, Htext, He. cbn [result trace].
  split; [reflexivity |]. split; [set_solver |].
  cbv zeta. rewrite (generate_if_needed_run _ _ _ _ Hn Hp), Htext. cbn [result state].
  split; [reflexivity |]. split; [reflexivity |].
  split; [apply lookup_insert_eq |]. split.
  - unfold needs_generation, feedback_pending. cbn [generated_content feedback set_generated_content].
    rewrite lookup_insert_eq. reflexivity.
  - intros Hc. rewrite (render_sdlc_step_idle _ _ _ Hc).
    rewrite (generate_if_needed_run _ _ _ _ Hn Hp), Htext. reflexivity.
Qed.

Lemma failed_generation_is_stored_as_empty_witness :
  generated_content
    (state (generate_if_needed (offline_input None) "user_stories" demo_session))
    !! "user_stories" = Some "".
Proof.
  refine (proj1 (proj2 (proj2 (proj2 (proj2
    (failed_generation_is_stored_as_empty
       (offline_input None) "user_stories"
       "Generate comprehensive user stories for: Smart pen with IoT capabilities. Include acceptance criteria."
       "Connection error." demo_session _ _ _)))))).
  - vm_compute. reflexivity.
  - vm_compute. reflexivity.
  - reflexivity.
Defined.

(** After a transport failure on a stage without content, the stage has an
    entry in [generated_content] (the empty string) and the next render does
    not generate again. *)
Lemma failed_generation_leaves_content_present :
  let s' := state (render_sdlc_step (offline_input None) "user_stories" demo_session) in
  generated_content demo_session !! "user_stories" = None ∧
  generated_content s' !! "user_stories" = Some "" ∧
  needs_generation "user_stories" s' = false.
Proof. vm_compute. repeat split; reflexivity. Qed.

(** ** Feedback survives regeneration *)

Lemma feedback_pending_app (w : run_input) (step_id : string) (s : session) :
  clicked w ≠ Some BtnStartNew →
  feedback_pending step_id s = true →
  feedback_pending step_id (state (app w s)) = true.
Proof.
  intros Hclick. apply (app_preserves (λ s', feedback_pending step_id s' = true) w);
    try (intros; assumption).
  - intros Hp. apply pressed_true in Hp. contradiction.
  - intros s0 _ _. apply approve_clicked_preserves; intros; assumption.
  - intros s0 _ _. apply submit_clicked_preserves. intros Hne s' Hs'.
    unfold feedback_pending in *. cbn [feedback set_approved set_feedback].
    rewrite lookup_insert. case_decide; [apply truthy_true, Hne | exact Hs'].
Qed.

Lemma feedback_pending_runs (ws : list run_input) (step_id : string) (s : session) :
  Forall (λ w, clicked w ≠ Some BtnStartNew) ws →
  feedback_pending step_id s = true →
  feedback_pending step_id (runs ws s) = true.
Proof.
  intros Hws. revert s. induction Hws as [|w ws Hw _ IH]; intros s Hs; [exact Hs |].
  apply IH, feedback_pending_app; assumption.
Qed.

(** C10 (as the code has it).  Storing newly generated text (line 149) sets
    [generated_content[step_id]] to the text the generator returned, over any
    previous value, and leaves [feedback] as it was; so a stage with
    non-empty feedback still needs generation afterwards, and keeps needing
    it through every later run of the script other than a "Start New SDLC"
    reset, which is the one operation that removes feedback entries. *)
Theorem regeneration_keeps_feedback
    (w : run_input) (step_id prompt : string) (s : session) :
  needs_generation step_id s = true →
  result (build_prompt step_id s) = inl prompt →
  let s' := state (generate_if_needed w step_id s) in
  generated_content s' =
    <[step_id := generated_text w step_id prompt s]> (generated_content s) ∧
  (∀ text, completion w (api_key s) (system_prompt step_id) prompt = inl text →
           generated_content s' !! step_id = Some text) ∧
  feedback s' = feedback s ∧
  (feedback_pending step_id s = true →
     needs_generation step_id s' = true ∧
     ∀ ws, Forall (λ w', clicked w' ≠ Some BtnStartNew) ws →
           needs_generation step_id (runs ws s') = true).
Proof.
  intros Hn Hp. cbv zeta. rewrite (generate_if_needed_run _ _ _ _ Hn Hp).
  cbn [state]. split; [reflexivity |]. split.
  - intros text Htext. cbn [generated_content set_generated_content].
    unfold generated_text. rewrite Htext. apply lookup_insert_eq.
  - split; [reflexivity |]. intros Hfb.
    assert (∀ s0, feedback_pending step_id s0 = true → needs_generation step_id s0 = true)
      as Hneeds by (intros s0 H0; unfold needs_generation; rewrite H0; apply orb_true_r).
    split.
    + apply Hneeds. exact Hfb.
    + intros ws Hws. apply Hneeds, feedback_pending_runs; [exact Hws | exact Hfb].
Qed.

Lemma regeneration_keeps_feedback_witness :
  feedback
    (state (generate_if_needed (demo_input None) "user_stories" revising_session))
  = feedback revising_session.
Proof.
  refine (proj1 (proj2 (proj2
    (regeneration_keeps_feedback
       (demo_input None) "user_stories"
       ("Generate comprehensive user stories for: Smart pen with IoT capabilities. Include acceptance criteria."
          +:+ nl +:+ nl +:+ "Feedback: make it shorter")
       revising_session _ _)))).
  - vm_compute. reflexivity.
  - vm_compute. reflexivity.
Defined.

(** "Start New SDLC" on the completion page removes the feedback entries. *)
Lemma start_new_clears_feedback :
  feedback finished_session !! "monitoring" = Some "add alerting" ∧
  feedback (state (app (demo_input (Some BtnStartNew)) finished_session))
    !! "monitoring" = None.
Proof. vm_compute. split; reflexivity. Qed.

(** ** Prompt templates *)

(** C8 (as the code has it).  Each of the stages user_stories, design_docs,
    code_generation, test_cases and deployment has a prompt template with
    exactly one replacement field [{prompt}], and the prompt built for such a
    stage is its template with the project description in place of the
    field, followed, when the stage has non-empty feedback, by a blank line
    and the paragraph "Feedback: ..." with that feedback. *)
Theorem templated_stage_prompt (step_id : string) :
  step_id ∈ templated_steps →
  step_id ∈ step_ids ∧
  ∃ template before after,
    PROMPT_TEMPLATES !! step_id = Some template ∧
    template = before +:+ "{prompt}" +:+ after ∧
    slot_count template = 1 ∧
    ∀ s description,
      project_prompt s = Some description →
      result (build_prompt step_id s) =
        inl (with_feedback (before +:+ description +:+ after) (feedback s !! step_id)).
Proof.
  assert (∀ template before after,
            PROMPT_TEMPLATES !! step_id = Some template →
            (∀ description, format template description =
                            Some (before +:+ description +:+ after)) →
            ∀ s description,
              project_prompt s = Some description →
              result (build_prompt step_id s) =
                inl (with_feedback (before +:+ description +:+ after)
                                   (feedback s !! step_id)))
    as Hbuild.
  { intros template before after Ht Hf s description Hp.
    unfold build_prompt. rewrite run_bind_get, Ht, Hp. cbv zeta. cbn [default].
    rewrite Hf. unfold with_feedback.
    destruct (feedback s !! step_id) as [text|]; [destruct (truthy text) |]; reflexivity. }
  unfold templated_steps. rewrite !elem_of_cons, elem_of_nil.
  intros [-> | [-> | [-> | [-> | [-> | []]]]]].
  - split; [in_registry |].
    exists "Generate comprehensive user stories for: {prompt}. Include acceptance criteria.",
           "Generate comprehensive user stories for: ",
           ". Include acceptance criteria.".
    split; [vm_compute; reflexivity |]. split; [reflexivity |].
    split; [vm_compute; reflexivity |].
    eapply Hbuild; [reflexivity | intros d; reflexivity].
  - split; [in_registry |].
    exists design_docs_template,
           "Create functional and technical design documents for: ",
           (String.substring 62 200 design_docs_template).
    split; [vm_compute; reflexivity |]. split; [vm_compute; reflexivity |].
    split; [vm_compute; reflexivity |].
    eapply Hbuild; [reflexivity | intros d; vm_compute; reflexivity].
  - split; [in_registry |].
    exists "Generate production-ready code for: {prompt}. Include error handling and docs.",
           "Generate production-ready code for: ",
           ". Include error handling and docs.".
    split; [vm_compute; reflexivity |]. split; [reflexivity |].
    split; [vm_compute; reflexivity |].
    eapply Hbuild; [reflexivity | intros d; reflexivity].
  - split; [in_registry |].
    exists "Create test cases for: {prompt}. Include positive/negative scenarios.",
           "Create test cases for: ",
           ". Include positive/negative scenarios.".
    split; [vm_compute; reflexivity |]. split; [reflexivity |].
    split; [vm_compute; reflexivity |].
    eapply Hbuild; [reflexivity | intros d; reflexivity].
  - split; [in_registry |].
    exists "Create deployment plan for: {prompt}. Include rollback strategy.",
           "Create deployment plan for: ",
           ". Include rollback strategy.".
    split; [vm_compute; reflexivity |]. split; [reflexivity |].
    split; [vm_compute; reflexivity |].
    eapply Hbuild; [reflexivity | intros d; reflexivity].
Qed.

Lemma templated_stage_prompt_witness :
  "design_docs" ∈ step_ids ∧
  ∃ template before after,
    PROMPT_TEMPLATES !! "design_docs" = Some template ∧
    template = before +:+ "{prompt}" +:+ after ∧
    slot_count template = 1 ∧
    ∀ s description,
      project_prompt s = Some description →
      result (build_prompt "design_docs" s) =
        inl (with_feedback (before +:+ description +:+ after)
                           (feedback s !! "design_docs")).
Proof.
  apply (templated_stage_prompt "design_docs").
  unfold templated_steps. apply list_elem_of_further, list_elem_of_here.
Defined.

(** The registry stages that have no entry in PROMPT_TEMPLATES; for one of
    them, code_review, the prompt sent to the generator is empty and does not
    contain the project description. *)
Lemma stages_without_template :
  List.filter (λ k, bool_decide (PROMPT_TEMPLATES !! k = None)) step_ids =
    ["api_input"; "code_review"; "security_review"; "qa_testing"; "monitoring"] ∧
  result (build_prompt "code_review" demo_session) = inl "".
Proof. vm_compute. split; reflexivity. Qed.

(** ** The theorems at work on the sample sessions *)

Lemma approve_advances_to_next_witness :
  current_step (state (approve_clicked "user_stories" demo_session)) = "design_docs".
Proof.
  exact (proj1 (proj2
    (approve_advances_to_next 1 "user_stories" demo_session eq_refl eq_refl))).
Defined.

Lemma second_approve_changes_nothing_witness :
  let s1 := state (app (demo_input (Some (BtnApprove "user_stories"))) demo_session) in
  let s2 := state (app (demo_input (Some (BtnApprove "user_stories"))) s1) in
  approved s2 = approved s1 ∧ current_step s2 = current_step s1.
Proof.
  apply (second_approve_changes_nothing
           (demo_input (Some (BtnApprove "user_stories")))
           (demo_input (Some (BtnApprove "user_stories")))
           "user_stories" demo_session).
  - reflexivity.
  - reflexivity.
  - vm_compute. discriminate.
Defined.

Lemma submit_feedback_spec_witness :
  feedback (state (submit_clicked "user_stories" "make it shorter" demo_session))
  = <["user_stories" := "make it shorter"]> (feedback demo_session).
Proof.
  refine (proj1 (proj2
    (proj2 (submit_feedback_spec "user_stories" "make it shorter" demo_session eq_refl) _))).
  discriminate.
Defined.

(** Scenario A of the specification on the first three registry entries of
    the program: after the intake, approving user_stories moves on to
    design_docs. *)
Example intake_then_approve :
  let s1 := state (app (demo_input (Some BtnStart)) initial_session) in
  let s2 := state (app (demo_input (Some (BtnApprove "user_stories"))) s1) in
  current_step s1 = "user_stories" ∧
  current_step s2 = "design_docs" ∧
  approved s2 = {["user_stories" := true]}.
Proof. vm_compute. repeat split; reflexivity. Qed.

(** The body of the Approve button itself does not compare its stage with
    [current_step]: it is [render_step] that only puts the current stage's
    buttons on the page.  Run on its own a second time, the body would move
    on from wherever [current_step] then is. *)
Remark approve_body_follows_current_step :
  current_step
    (state (approve_clicked "user_stories"
              (state (approve_clicked "user_stories" demo_session))))
  = "code_generation".
Proof. vm_compute. reflexivity. Qed.

(** * Further properties of the script *)

(** ** Runs with two postconditions *)

Lemma post_bind {A B} (m : script A) (k : A → script B) s Qn Qi :
  post (m s) (λ a s', post (k a s') Qn Qi) Qi → post ((m ≫= k) s) Qn Qi.
Proof.
  unfold post. rewrite run_bind. destruct (result (m s)); cbn [result state]; auto.
Qed.

Lemma triple_bind {A B} P (m : script A) (k : A → script B) R Qn Qi :
  triple P m R Qi → (∀ a, triple (R a) (k a) Qn Qi) → triple P (m ≫= k) Qn Qi.
Proof.
  intros Hm Hk s Hs. apply post_bind. specialize (Hm s Hs). unfold post in *.
  destruct (result (m s)); [apply Hk, Hm | exact Hm].
Qed.

Lemma triple_get_bind {A} P (k : session → script A) Qn Qi :
  (∀ s, P s → post (k s s) Qn Qi) → triple P (get ≫= k) Qn Qi.
Proof. intros Hk s Hs. rewrite run_bind_get. apply Hk, Hs. Qed.

Lemma triple_modify P f (Qn : unit → session → Prop) Qi :
  (∀ s, P s → Qn tt (f s)) → triple P (modify f) Qn Qi.
Proof. intros Hf s Hs. apply Hf, Hs. Qed.

Lemma triple_emit P e (Qn : unit → session → Prop) Qi :
  (∀ s, P s → Qn tt s) → triple P (emit e) Qn Qi.
Proof. intros He s Hs. apply He, Hs. Qed.

Lemma triple_break {A} P i (Qn : A → session → Prop) Qi :
  (∀ s, P s → Qi i s) → triple P (break i) Qn Qi.
Proof. intros Hi s Hs. apply Hi, Hs. Qed.

Lemma triple_when P (b : bool) m (Qn : unit → session → Prop) Qi :
  (b = true → triple P m Qn Qi) → (b = false → ∀ s, P s → Qn tt s) →
  triple P (when b m) Qn Qi.
Proof.
  destruct b; intros Hm Hskip; [apply Hm; reflexivity |].
  intros s Hs. apply Hskip; [reflexivity | exact Hs].
Qed.

Lemma triple_weaken {A} (P P' : session → Prop) (m : script A)
    (Qn Qn' : A → session → Prop) (Qi Qi' : interrupt → session → Prop) :
  triple P m Qn Qi →
  (∀ s, P' s → P s) → (∀ a s, Qn a s → Qn' a s) → (∀ i s, Qi i s → Qi' i s) →
  triple P' m Qn' Qi'.
Proof.
  intros Hm HP Hn Hi s Hs. specialize (Hm s (HP s Hs)). unfold post in *.
  destruct (result (m s)); auto.
Qed.

(** ** The registry *)

Lemma next_is_stage_key (i : nat) (next : string) :
  step_ids !! S i = Some next → stage_key next.
Proof.
  intros Hi. split; [eapply list_elem_of_lookup_2; eassumption |].
  intros ->.
  assert (S i = 0); [| discriminate].
  eapply NoDup_lookup; [apply step_ids_NoDup | eassumption | reflexivity].
Qed.

Lemma find_step_Some (step_id : string) :
  step_id ∈ step_ids → ∃ st, find_step step_id = Some st ∧ id st = step_id.
Proof.
  unfold step_ids, find_step. generalize WORKFLOW_STEPS.
  induction l as [|[k ? ? ?] l IH]; rewrite ?fmap_nil, ?fmap_cons.
  - intros H. apply elem_of_nil in H. destruct H.
  - intros H. cbn [List.find id]. destruct (String.eqb_spec k step_id) as [-> | Hne].
    + eexists. split; reflexivity.
    + apply IH. apply elem_of_cons in H as [H | H]; [simpl in H; congruence | exact H].
Qed.

Lemma find_step_None (step_id : string) :
  step_id ∉ step_ids → find_step step_id = None.
Proof.
  unfold step_ids, find_step. generalize WORKFLOW_STEPS.
  induction l as [|[k ? ? ?] l IH]; rewrite ?fmap_nil, ?fmap_cons; [reflexivity |].
  intros H. cbn [List.find id]. destruct (String.eqb_spec k step_id) as [-> | Hne].
  - exfalso. apply H. left.
  - apply IH. intros Hin. apply H. right. exact Hin.
Qed.

Lemma index_of_None (step_id : string) :
  step_id ∉ step_ids → index_of step_id WORKFLOW_STEPS = None.
Proof.
  unfold step_ids. generalize WORKFLOW_STEPS.
  induction l as [|[k ? ? ?] l IH]; rewrite ?fmap_nil, ?fmap_cons; [reflexivity |].
  intros H. cbn [index_of id]. destruct (String.eqb_spec k step_id) as [-> | Hne].
  - exfalso. apply H. left.
  - rewrite IH; [reflexivity |]. intros Hin. apply H. right. exact Hin.
Qed.

(** ** Assignments and [wf] *)

Lemma wf_set_show v s : wf s → wf (set_show_completion_prompt v s).
Proof. intros [? ? ? ? ?]. constructor; assumption. Qed.

Lemma wf_set_generated k v s : stage_key k → wf s → wf (set_generated_content k v s).
Proof.
  intros Hk [? ? Hg ? ?]. constructor; try assumption.
  intros k'. cbn [generated_content set_generated_content]. rewrite lookup_insert.
  case_decide; [subst; intros _; exact Hk | apply Hg].
Qed.

Lemma wf_set_approved k v s : stage_key k → wf s → wf (set_approved k v s).
Proof.
  intros Hk [? ? ? Ha ?]. constructor; try assumption.
  intros k'. cbn [approved set_approved]. rewrite lookup_insert.
  case_decide; [subst; intros _; exact Hk | apply Ha].
Qed.

Lemma wf_set_feedback k text s :
  stage_key k → text ≠ "" → wf s → wf (set_feedback k text s).
Proof.
  intros Hk Hne [? ? ? ? Hf]. constructor; try assumption.
  intros k' text'. cbn [feedback set_feedback]. rewrite lookup_insert.
  case_decide; [subst; intros [= <-]; split; assumption | apply Hf].
Qed.

Lemma wf_set_current next s :
  stage_key next → current_step s ≠ "api_input" → wf s → wf (set_current_step next s).
Proof.
  intros [Hin Hne] Hcur [? Hi ? ? ?]. constructor; try assumption.
  intros _. apply Hi, Hcur.
Qed.

Lemma wf_reset s : wf (reset s).
Proof.
  constructor; cbn [reset current_step generated_content approved feedback].
  - in_registry.
  - intros H. destruct H. reflexivity.
  - intros k [v H]. rewrite lookup_empty in H. discriminate.
  - intros k [v H]. rewrite lookup_empty in H. discriminate.
  - intros k text H. rewrite lookup_empty in H. discriminate.
Qed.

Lemma wf_set_intake k p s :
  current_step s = "api_input" → wf s → wf (set_intake k p s).
Proof.
  intros Hcur [? ? ? ? ?]. constructor; try assumption.
  intros Hne. destruct Hne. exact Hcur.
Qed.

Lemma wf_start k p s :
  k ≠ "" → p ≠ "" → wf s → wf (set_current_step "user_stories" (set_intake k p s)).
Proof.
  intros Hk Hp [? ? ? ? ?]. constructor; try assumption.
  - cbn [current_step set_current_step]. in_registry.
  - intros _. exists k, p. repeat split; assumption.
Qed.

Lemma wf_initial : wf initial_session.
Proof.
  constructor; cbn [initial_session current_step generated_content approved feedback].
  - in_registry.
  - intros H. destruct H. reflexivity.
  - intros k [v H]. rewrite lookup_empty in H. discriminate.
  - intros k [v H]. rewrite lookup_empty in H. discriminate.
  - intros k text H. rewrite lookup_empty in H. discriminate.
Qed.

(** ** Every function of the script keeps [wf] and raises nothing *)

Lemma move_to_next_step_triple (c : string) :
  c ≠ "api_input" →
  triple (at_stage c) move_to_next_step (λ _, at_stage c) (controlled wf).
Proof.
  intros Hc s [Hwf Hcur].
  destruct (list_elem_of_lookup_1 _ _ (wf_current s Hwf)) as [i Hi].
  rewrite (move_to_next_step_run s i Hi).
  destruct (step_ids !! S i) as [next|] eqn:Hnext; unfold post; cbn [result state].
  - split; [discriminate |].
    apply wf_set_current; [eapply next_is_stage_key; eassumption | congruence | exact Hwf].
  - split; assumption.
Qed.

Lemma approve_clicked_triple (c : string) :
  stage_key c →
  triple (at_stage c) (approve_clicked c) (λ _, at_stage c) (controlled wf).
Proof.
  intros Hc. apply (triple_bind _ _ _ (λ _, at_stage c));
    [| intros ?; apply move_to_next_step_triple, Hc].
  apply triple_modify. intros s [Hwf Hcur]. split; [| exact Hcur].
  apply wf_set_approved; assumption.
Qed.

Lemma submit_clicked_triple (c text : string) :
  stage_key c →
  triple (at_stage c) (submit_clicked c text) (λ _, at_stage c) (controlled wf).
Proof.
  intros Hc s [Hwf Hcur]. unfold submit_clicked.
  destruct (truthy text) eqn:Ht.
  - rewrite !run_bind_modify. unfold post; cbn [break result state].
    split; [discriminate |].
    apply wf_set_approved, wf_set_feedback; try assumption. apply truthy_true, Ht.
  - unfold post; cbn [emit result state]. split; assumption.
Qed.

Lemma needs_generation_false_content step_id s :
  needs_generation step_id s = false → is_Some (generated_content s !! step_id).
Proof.
  unfold needs_generation. destruct (generated_content s !! step_id); [eauto | discriminate].
Qed.

Lemma generate_if_needed_post (w : run_input) (c : string) (s : session) :
  is_Some (project_prompt s) →
  result (generate_if_needed w c s) = inl tt ∧
  is_Some (generated_content (state (generate_if_needed w c s)) !! c) ∧
  (state (generate_if_needed w c s) = s ∨
   ∃ v, state (generate_if_needed w c s) = set_generated_content c v s).
Proof.
  intros Hp. destruct (needs_generation c s) eqn:Hn.
  - destruct (build_prompt_ok c s Hp) as [prompt Hprompt].
    rewrite (generate_if_needed_run w c s prompt Hn Hprompt). cbn [result state].
    split; [reflexivity |]. split; [| right; eexists; reflexivity].
    cbn [generated_content set_generated_content]. rewrite lookup_insert_eq. eauto.
  - rewrite (generate_if_needed_skip w c s Hn). cbn [result state].
    split; [reflexivity |]. split; [| left; reflexivity].
    apply needs_generation_false_content, Hn.
Qed.

Lemma at_stage_described c s :
  c ≠ "api_input" → at_stage c s → is_Some (project_prompt s).
Proof.
  intros Hc [Hwf Hcur]. destruct (wf_intake s Hwf) as (k & p & _ & _ & Hp & _);
    [congruence | eauto].
Qed.

Lemma generate_if_needed_triple (w : run_input) (c : string) :
  stage_key c →
  triple (at_stage c) (generate_if_needed w c)
         (λ _ s, at_stage c s ∧ is_Some (generated_content s !! c))
         (λ _ _, False).
Proof.
  intros Hc s Hs.
  destruct (generate_if_needed_post w c s (at_stage_described c s (proj2 Hc) Hs))
    as (Hr & Hg & Hst).
  unfold post. rewrite Hr. split; [| exact Hg].
  destruct Hs as [Hwf Hcur].
  destruct Hst as [-> | [v ->]]; [split; assumption |].
  split; [apply wf_set_generated; assumption | exact Hcur].
Qed.

Lemma render_sdlc_step_triple (w : run_input) (c : string) :
  stage_key c →
  triple (at_stage c) (render_sdlc_step w c) (λ _, wf) (controlled wf).
Proof.
  intros Hc.
  apply (triple_bind _ _ _ (λ _ s, at_stage c s ∧ is_Some (generated_content s !! c))).
  { eapply triple_weaken; [apply (generate_if_needed_triple w c Hc) | auto | | ].
    - intros a s H. exact H.
    - intros i s []. }
  intros ?. apply triple_get_bind. intros s [Hs [text Hg]]. rewrite Hg.
  revert s Hs Hg.
  assert (triple (at_stage c)
            (emit (Markdown text);;
             when (pressed w (BtnApprove c)) (approve_clicked c);;
             when (pressed w (BtnSubmit c)) (submit_clicked c (feedback_input w c));;
             when (truthy text) (emit (DownloadText ("download_" +:+ c) text)))
            (λ _, wf) (controlled wf)) as Hcontrols.
  { apply (triple_bind _ _ _ (λ _, at_stage c));
      [apply triple_emit; intros s Hs; exact Hs |]. intros ?.
    apply (triple_bind _ _ _ (λ _, at_stage c)).
    { apply triple_when; [intros _; apply approve_clicked_triple, Hc |].
      intros _ s Hs. exact Hs. }
    intros ?. apply (triple_bind _ _ _ (λ _, at_stage c)).
    { apply triple_when; [intros _; apply submit_clicked_triple, Hc |].
      intros _ s Hs. exact Hs. }
    intros ?. apply triple_when.
    - intros _. apply triple_emit. intros s [Hs _]. exact Hs.
    - intros _ s [Hs _]. exact Hs. }
  intros s Hs _. apply Hcontrols, Hs.
Qed.

Lemma render_api_input_triple (w : run_input) :
  triple (at_stage "api_input") (render_api_input w) (λ _, wf) (controlled wf).
Proof.
  intros s [Hwf Hcur]. unfold render_api_input. rewrite run_bind_modify.
  unfold when. destruct (pressed w BtnStart).
  - destruct (truthy (api_key_input w)) eqn:Hk; cbn [negb].
    + destruct (truthy (project_input w)) eqn:Hp; cbn [negb].
      * rewrite run_bind_modify. unfold post; cbn [break result state].
        split; [discriminate |].
        apply wf_start; [apply truthy_true, Hk | apply truthy_true, Hp | exact Hwf].
      * unfold post; cbn [emit result state]. apply wf_set_intake; assumption.
    + unfold post; cbn [emit result state]. apply wf_set_intake; assumption.
  - unfold post; cbn [mret script_ret result state]. apply wf_set_intake; assumption.
Qed.

Lemma render_step_triple (w : run_input) (c : string) :
  triple (at_stage c) (render_step w c) (λ _, wf) (controlled wf).
Proof.
  intros s Hs. pose proof Hs as [Hwf Hcur].
  pose proof (wf_current s Hwf) as Hin. rewrite Hcur in Hin.
  destruct (find_step_Some c Hin) as (st & Hfind & _).
  unfold render_step. rewrite Hfind.
  apply (triple_bind (at_stage c) _ _ (λ _, at_stage c));
    [apply triple_emit; intros s' Hs'; exact Hs' | | exact Hs].
  intros ?. destruct (String.eqb_spec c "api_input") as [-> | Hne].
  - apply render_api_input_triple.
  - apply render_sdlc_step_triple. split; assumption.
Qed.

Lemma render_completion_prompt_triple (w : run_input) :
  triple wf (render_completion_prompt w) (λ _, wf) (controlled wf).
Proof.
  apply (triple_bind _ _ _ (λ _, wf)); [apply triple_emit; intros s Hs; exact Hs |].
  intros ?. apply (triple_bind _ _ _ (λ _, wf)).
  { apply triple_when; [intros _ | intros _ s Hs; exact Hs].
    apply (triple_bind _ _ _ (λ _, wf)); [apply triple_modify; intros s _; apply wf_reset |].
    intros ?. apply triple_break. intros s Hs. split; [discriminate | exact Hs]. }
  intros ?. apply triple_when; [intros _ | intros _ s Hs; exact Hs].
  apply (triple_bind _ _ _ (λ _, wf)); [apply triple_emit; intros s Hs; exact Hs |].
  intros ?.
  apply (triple_bind _ _ _ (λ _, wf)); [apply triple_emit; intros s Hs; exact Hs |].
  intros ?. apply triple_break. intros s Hs. split; [discriminate | exact Hs].
Qed.

Lemma progress_in_range_iff (s : session) :
  progress_in_range s = true ↔ (approved_count s ≤ total_steps)%nat.
Proof. unfold progress_in_range. cbn [Nat.ltb Nat.leb total_steps]. apply Nat.leb_le. Qed.

Lemma sidebar_run (w : run_input) (s : session) :
  progress_in_range s = true →
  result (sidebar w s) = inl tt ∧
  state (sidebar w s) =
    if negb (String.eqb (current_step s) "api_input") && check_workflow_completion s
    then set_show_completion_prompt true s else s.
Proof.
  intros Hp. unfold sidebar. rewrite run_bind. cbn [emit result state trace].
  rewrite run_bind_get, Hp, run_bind_ret. unfold when.
  destruct (negb (String.eqb (current_step s) "api_input")); cbn [andb].
  - rewrite run_bind, download_entire_workflow_run. cbn [emit result state trace].
    split; reflexivity.
  - split; reflexivity.
Qed.

Lemma sidebar_overflow (w : run_input) (s : session) :
  progress_in_range s = false →
  sidebar w s = Outcome (inr (Raise "StreamlitAPIException")) s [Header "SDLC Workflow"].
Proof.
  intros Hp. unfold sidebar. rewrite run_bind. cbn [emit result state trace].
  rewrite run_bind_get, Hp. reflexivity.
Qed.

Lemma sidebar_result (w : run_input) (s : session) :
  result (sidebar w s) =
  if progress_in_range s then inl tt else inr (Raise "StreamlitAPIException").
Proof.
  destruct (progress_in_range s) eqn:Hp;
    [apply (sidebar_run w s Hp) | rewrite (sidebar_overflow w s Hp); reflexivity].
Qed.

Lemma sidebar_state (w : run_input) (s : session) :
  state (sidebar w s) = s ∨ state (sidebar w s) = set_show_completion_prompt true s.
Proof.
  destruct (progress_in_range s) eqn:Hp.
  - rewrite (proj2 (sidebar_run w s Hp)). destruct (_ && _); auto.
  - rewrite (sidebar_overflow w s Hp). left. reflexivity.
Qed.

Lemma stage_key_non_intake k : stage_key k ↔ k ∈ id <$> non_intake_steps.
Proof. unfold stage_key. symmetry. apply non_intake_ids. Qed.

Lemma approved_keys (s : session) :
  wf s → dom (approved s) ⊆ list_to_set (id <$> non_intake_steps).
Proof.
  intros Hs k Hk. apply elem_of_list_to_set, stage_key_non_intake.
  apply (wf_approved s Hs). apply elem_of_dom, Hk.
Qed.

Lemma non_intake_NoDup : NoDup (id <$> non_intake_steps).
Proof. apply (bool_decide_unpack _). vm_compute. reflexivity. Qed.

Lemma approved_true_keys (s : session) :
  dom (filter (λ kv : string * bool, kv.2 = true) (approved s)) ⊆ dom (approved s).
Proof. apply subseteq_dom, map_filter_subseteq. Qed.

Lemma wf_progress_in_range (s : session) : wf s → progress_in_range s = true.
Proof.
  intros Hs. apply progress_in_range_iff.
  unfold approved_count. rewrite <- size_dom.
  etrans; [apply subseteq_size; etrans; [apply approved_true_keys | apply approved_keys, Hs] |].
  rewrite size_list_to_set by apply non_intake_NoDup. reflexivity.
Qed.

Lemma sidebar_triple (w : run_input) :
  triple wf (sidebar w) (λ _, wf) (λ _ _, False).
Proof.
  intros s Hs. destruct (sidebar_run w s (wf_progress_in_range s Hs)) as [Hr Hst].
  unfold post. rewrite Hr, Hst.
  destruct (_ && _); [apply wf_set_show |]; exact Hs.
Qed.

Lemma app_triple (w : run_input) : triple wf (app w) (λ _, wf) (controlled wf).
Proof.
  apply (triple_bind _ _ _ (λ _, wf)).
  { eapply triple_weaken; [apply sidebar_triple | auto | auto |]. intros i s []. }
  intros ?. apply triple_get_bind. intros s Hs.
  destruct (show_completion_prompt s).
  - apply render_completion_prompt_triple, Hs.
  - apply render_step_triple. split; [exact Hs | reflexivity].
Qed.

(** ** What a run leaves behind *)

Lemma pressed_false w b : clicked w ≠ Some b → pressed w b = false.
Proof. intros H. apply bool_decide_eq_false_2, H. Qed.

Lemma pressed_other w b b' : pressed w b = true → b ≠ b' → pressed w b' = false.
Proof. intros H Hne. apply pressed_true in H. apply pressed_false. congruence. Qed.

Lemma render_completion_prompt_run (w : run_input) (s : session) :
  render_completion_prompt w s =
  if pressed w BtnStartNew then
    Outcome (inr Rerun) (reset s)
            [Success "🎉 SDLC workflow completed and downloaded successfully!"]
  else if pressed w BtnQuit then
    Outcome (inr Stopped) s
            [Success "🎉 SDLC workflow completed and downloaded successfully!";
             Markdown "### Thank you for using SDLC Assistant!";
             Markdown "> You can safely close this browser tab."]
  else
    Outcome (inl tt) s
            [Success "🎉 SDLC workflow completed and downloaded successfully!"].
Proof.
  unfold render_completion_prompt.
  destruct (pressed w BtnStartNew), (pressed w BtnQuit); reflexivity.
Qed.

Lemma app_run (w : run_input) (s : session) :
  let s1 := state (sidebar w s) in
  let o := if show_completion_prompt s1 then render_completion_prompt w s1
           else render_step w (current_step s1) s1 in
  app w s =
  match result (sidebar w s) with
  | inl _ => Outcome (result o) (state o) (trace (sidebar w s) ++ trace o)
  | inr i => Outcome (inr i) s1 (trace (sidebar w s))
  end.
Proof.
  cbv zeta. unfold app. rewrite run_bind.
  destruct (result (sidebar w s)); [| reflexivity].
  rewrite run_bind_get. destruct (show_completion_prompt _); reflexivity.
Qed.

Lemma generate_if_needed_cases (w : run_input) (c : string) (s : session) :
  (result (generate_if_needed w c s) = inl tt ∧
   is_Some (generated_content (state (generate_if_needed w c s)) !! c)) ∨
  ((∃ e, result (generate_if_needed w c s) = inr (Raise e)) ∧
   state (generate_if_needed w c s) = s).
Proof.
  destruct (project_prompt s) as [p|] eqn:Hp.
  - left. destruct (generate_if_needed_post w c s) as (Hr & Hg & _); [rewrite Hp; eauto |].
    split; assumption.
  - destruct (needs_generation c s) eqn:Hn.
    + right. unfold generate_if_needed, build_prompt.
      rewrite run_bind_get, Hn. unfold when. rewrite run_bind, run_bind_get, Hp.
      cbn [break result state]. split; [eexists |]; reflexivity.
    + left. rewrite (generate_if_needed_skip w c s Hn). cbn [result state].
      split; [reflexivity | apply needs_generation_false_content, Hn].
Qed.

(** The session after rendering a stage: the generation of lines 143-149,
    then the body of the one button that was pressed, if any. *)
Lemma render_sdlc_step_state (w : run_input) (c : string) (s : session) :
  let s1 := state (generate_if_needed w c s) in
  state (render_sdlc_step w c s) =
  match result (generate_if_needed w c s) with
  | inl _ =>
      if pressed w (BtnApprove c) then state (approve_clicked c s1)
      else if pressed w (BtnSubmit c)
           then state (submit_clicked c (feedback_input w c) s1)
           else s1
  | inr _ => s1
  end.
Proof.
  cbv zeta. unfold render_sdlc_step. rewrite state_bind.
  destruct (generate_if_needed_cases w c s) as [[Hr [text Hg]] | [[e Hr] Hst]];
    rewrite Hr; [| reflexivity].
  rewrite run_bind_get, Hg. rewrite state_bind. cbn [emit result state].
  rewrite state_bind. unfold when at 1.
  destruct (pressed w (BtnApprove c)) eqn:Ha.
  - rewrite (pressed_other w _ (BtnSubmit c) Ha) by discriminate.
    destruct (result (approve_clicked c _)); [| reflexivity].
    rewrite state_bind. cbn [when mret script_ret result state].
    destruct (truthy text); reflexivity.
  - cbn [mret script_ret result state]. rewrite state_bind. unfold when at 1.
    destruct (pressed w (BtnSubmit c)).
    + destruct (result (submit_clicked c _ _)); [| reflexivity].
      destruct (truthy text); reflexivity.
    + cbn [mret script_ret result state]. destruct (truthy text); reflexivity.
Qed.

(** ** Sessions reached from a fresh one *)

Lemma app_safe (w : run_input) (s : session) :
  wf s → wf (state (app w s)) ∧ ∀ e, result (app w s) ≠ inr (Raise e).
Proof.
  intros Hs. pose proof (app_triple w s Hs) as H. unfold post in H.
  destruct (result (app w s)) as [a | i].
  - split; [exact H | discriminate].
  - destruct H as [Hi Hwf]. split; [exact Hwf |]. intros e [= ->]. apply (Hi e). reflexivity.
Qed.

Lemma runs_wf (ws : list run_input) (s : session) : wf s → wf (runs ws s).
Proof.
  revert s. induction ws as [|w ws IH]; intros s Hs; [exact Hs |].
  apply IH, app_safe, Hs.
Qed.

Lemma reachable_wf (ws : list run_input) : wf (runs ws initial_session).
Proof. apply runs_wf, wf_initial. Qed.

(** X1.  Whatever the user does, starting from a fresh session: the current
    step is a registry id; the keys of [generated_content], [approved] and
    [feedback] are registry ids other than the intake stage; stored feedback
    is never empty; and once past the intake page the API key and the
    project description are present and non-empty. *)
Theorem reachable_sessions (ws : list run_input) :
  let s := runs ws initial_session in
  current_step s ∈ step_ids ∧
  (∀ k, is_Some (generated_content s !! k) ∨ is_Some (approved s !! k) ∨
        is_Some (feedback s !! k) →
        k ∈ step_ids ∧ k ≠ "api_input") ∧
  (∀ k, feedback s !! k ≠ Some "") ∧
  (current_step s ≠ "api_input" →
     ∃ key description,
       api_key s = Some key ∧ key ≠ "" ∧
       project_prompt s = Some description ∧ description ≠ "").
Proof.
  intros s. destruct (reachable_wf ws) as [Hcur Hintake Hg Ha Hf]. fold s in Hcur, Hintake, Hg, Ha, Hf.
  split; [exact Hcur |]. split; [| split; [| exact Hintake]].
  - intros k [H | [H | [text H]]]; [apply Hg, H | apply Ha, H | apply (Hf k text H)].
  - intros k H. destruct (Hf k "" H) as [_ Hne]. apply Hne. reflexivity.
Qed.

(** X2.  No run of the script, from any session reached from a fresh one,
    ends in an uncaught exception: [move_to_next_step] finds the current
    step, the project description is there when a prompt is built, and the
    content shown was stored. *)
Theorem reachable_run_raises_nothing (ws : list run_input) (w : run_input) (e : string) :
  result (app w (runs ws initial_session)) ≠ inr (Raise e).
Proof. apply app_safe, reachable_wf. Qed.

(** X3.  For a session reached from a fresh one, the [steps] of the export
    have exactly the keys of [generated_content]. *)
Theorem reachable_export_keys (ws : list run_input) (w : run_input) :
  let s := runs ws initial_session in
  ∃ data, result (download_entire_workflow w s) = inl data ∧
          dom (steps data) = dom (generated_content s).
Proof.
  intros s. rewrite download_entire_workflow_run. eexists. split; [reflexivity |].
  cbn [steps]. apply set_eq. intros k. rewrite !elem_of_dom, export_steps_lookup.
  destruct (decide (k ∈ step_ids)) as [Hin | Hnin].
  - apply fmap_is_Some.
  - split; [intros [? ?]; discriminate |]. intros Hk. destruct Hnin.
    apply (wf_generated s (reachable_wf ws) k Hk).
Qed.

(** X4.  The sidebar's progress fraction stays within [0, 1]: the number of
    approved entries never exceeds [total_steps], and it equals
    [total_steps] exactly when [check_workflow_completion] holds. *)
Theorem progress_matches_completion (ws : list run_input) :
  let s := runs ws initial_session in
  (approved_count s ≤ total_steps)%nat ∧
  (approved_count s = total_steps ↔ check_workflow_completion s = true).
Proof.
  intros s. pose proof (reachable_wf ws) as Hs. fold s in Hs.
  set (keys := list_to_set (id <$> non_intake_steps) : gset string).
  assert (size keys = total_steps) as Hkeys
    by (unfold keys; rewrite size_list_to_set by apply non_intake_NoDup; reflexivity).
  set (yes := filter (λ kv : string * bool, kv.2 = true) (approved s)).
  assert (dom yes ⊆ keys) as Hsub
    by (etrans; [apply approved_true_keys | apply approved_keys, Hs]).
  assert (approved_count s = size (dom yes)) as Hcount
    by (unfold approved_count; fold yes; symmetry; apply size_dom).
  rewrite Hcount, <- Hkeys. split; [apply subseteq_size, Hsub |].
  assert (∀ k, k ∈ dom yes ↔ approved s !! k = Some true) as Hyes.
  { intros k. rewrite elem_of_dom. unfold yes. split.
    - intros [v Hv]. apply map_lookup_filter_Some in Hv as [Hv Ht]. simpl in Ht. congruence.
    - intros Hk. exists true. apply map_lookup_filter_Some. split; [exact Hk | reflexivity]. }
  unfold check_workflow_completion. rewrite completion_filter, Nat.eqb_eq.
  change (length WORKFLOW_STEPS - 1) with (length non_intake_steps).
  rewrite filter_length_all, Forall_forall. split.
  - intros Hsize st Hst. apply approved_get_true, Hyes.
    assert (dom yes = keys) as -> by (apply set_subseteq_size_eq; [exact Hsub | lia]).
    apply elem_of_list_to_set, list_elem_of_fmap. eauto.
  - intros Hall. apply Nat.le_antisymm; [apply subseteq_size, Hsub |].
    apply subseteq_size. intros k Hk. apply elem_of_list_to_set in Hk.
    apply list_elem_of_fmap in Hk as (st & -> & Hst).
    apply Hyes, approved_get_true, Hall, Hst.
Qed.

(** ** The intake page *)

Lemma render_api_input_stores (w : run_input) (s : session) :
  let s' := state (render_api_input w s) in
  api_key s' = Some (api_key_input w) ∧
  project_prompt s' = Some (project_input w) ∧
  approved s' = approved s ∧ feedback s' = feedback s ∧
  generated_content s' = generated_content s ∧
  show_completion_prompt s' = show_completion_prompt s.
Proof.
  cbv zeta. unfold render_api_input. rewrite run_bind_modify. unfold when.
  destruct (pressed w BtnStart); [| cbn; tauto].
  destruct (truthy (api_key_input w)); cbn [negb]; [| cbn; tauto].
  destruct (truthy (project_input w)); cbn [negb]; [| cbn; tauto].
  rewrite run_bind_modify. cbn. tauto.
Qed.

(** X5.  The intake page stores the two text inputs as [api_key] and
    [project_prompt] on every run and touches no workflow dictionary.  "Start
    SDLC Workflow" moves to user_stories and re-runs only when both inputs
    are non-empty; otherwise it shows one warning (the API key is checked
    first) and stays on the intake page. *)
Theorem intake_validation (w : run_input) (s : session) :
  let o := render_api_input w s in
  (api_key (state o) = Some (api_key_input w) ∧
   project_prompt (state o) = Some (project_input w) ∧
   approved (state o) = approved s ∧ feedback (state o) = feedback s ∧
   generated_content (state o) = generated_content s) ∧
  (clicked w = Some BtnStart → api_key_input w ≠ "" → project_input w ≠ "" →
     result o = inr Rerun ∧ current_step (state o) = "user_stories") ∧
  (clicked w = Some BtnStart → api_key_input w = "" →
     result o = inl tt ∧ trace o = [Warning "Please enter API key"] ∧
     current_step (state o) = current_step s) ∧
  (clicked w = Some BtnStart → api_key_input w ≠ "" → project_input w = "" →
     result o = inl tt ∧ trace o = [Warning "Please enter project description"] ∧
     current_step (state o) = current_step s) ∧
  (clicked w ≠ Some BtnStart →
     result o = inl tt ∧ trace o = [] ∧ current_step (state o) = current_step s).
Proof.
  cbv zeta. split; [pose proof (render_api_input_stores w s); cbv zeta in *; tauto |].
  unfold render_api_input. rewrite run_bind_modify. unfold when.
  split; [| split; [| split]].
  - intros Hc Hk Hp. apply pressed_true in Hc. apply truthy_true in Hk, Hp.
    rewrite Hc, Hk, Hp. cbn [negb]. rewrite run_bind_modify. split; reflexivity.
  - intros Hc Hk. apply pressed_true in Hc. rewrite Hc, Hk. repeat split; reflexivity.
  - intros Hc Hk Hp. apply pressed_true in Hc. apply truthy_true in Hk.
    rewrite Hc, Hk, Hp. repeat split; reflexivity.
  - intros Hc. rewrite (pressed_false _ _ Hc). repeat split; reflexivity.
Qed.

(** ** The completion page *)

Lemma set_show_true_id (s : session) :
  show_completion_prompt s = true → set_show_completion_prompt true s = s.
Proof. destruct s. cbn. intros ->. reflexivity. Qed.

Lemma sidebar_shown (w : run_input) (s : session) :
  show_completion_prompt s = true → state (sidebar w s) = s.
Proof.
  intros Hs. destruct (sidebar_state w s) as [-> | ->];
    [reflexivity | apply set_show_true_id, Hs].
Qed.

(** X6.  "Start New SDLC" on the completion page (the sidebar's progress
    value being in range, as it is in every session reached from a fresh
    one) re-runs the script on a session whose workflow fields are those of
    a fresh one; only the API key is carried over (the empty string if there
    was none).  The intake page rendered next replaces that key by the
    content of its text box. *)
Theorem start_new_sdlc (w : run_input) (s : session) :
  (approved_count s ≤ total_steps)%nat →
  show_completion_prompt s = true →
  clicked w = Some BtnStartNew →
  result (app w s) = inr Rerun ∧
  state (app w s) = Session "api_input" ∅ ∅ ∅ false (Some (default "" (api_key s))) None ∧
  ∀ w', api_key (state (app w' (state (app w s)))) = Some (api_key_input w').
Proof.
  intros Hrange Hs Hc. apply progress_in_range_iff in Hrange. apply pressed_true in Hc.
  assert (app w s = Outcome (inr Rerun) (reset s)
                            (trace (sidebar w s) ++
                             [Success "🎉 SDLC workflow completed and downloaded successfully!"]))
    as Hrun.
  { rewrite app_run. cbv zeta. rewrite (proj1 (sidebar_run w s Hrange)).
    rewrite (sidebar_shown w s Hs), Hs.
    rewrite render_completion_prompt_run, Hc. reflexivity. }
  rewrite Hrun. cbn [result state]. split; [reflexivity |]. split; [reflexivity |].
  intros w'. rewrite app_run. cbv zeta.
  assert (progress_in_range (reset s) = true) as Hfresh by reflexivity.
  destruct (sidebar_run w' (reset s) Hfresh) as [-> Hside].
  assert (state (sidebar w' (reset s)) = reset s) as -> by (rewrite Hside; reflexivity).
  cbn [reset show_completion_prompt current_step].
  change (render_step w' "api_input") with
    (emit (Header "🤖 AI Powered Automation") ≫= λ _ : unit, render_api_input w').
  cbn [state]. rewrite state_bind. cbn [emit result state].
  apply (render_api_input_stores w').
Qed.

Lemma start_new_sdlc_witness :
  state (app (demo_input (Some BtnStartNew)) finished_session)
  = Session "api_input" ∅ ∅ ∅ false (Some "gsk-demo") None.
Proof.
  refine (proj1 (proj2
    (start_new_sdlc (demo_input (Some BtnStartNew)) finished_session _ eq_refl eq_refl))).
  apply progress_in_range_iff. vm_compute. reflexivity.
Defined.

Lemma sidebar_quiet (w : run_input) : quiet (sidebar w).
Proof.
  apply quiet_bind; [intros s; reflexivity |]. intros _.
  intros s. rewrite run_bind_get.
  destruct (progress_in_range s); [rewrite run_bind_ret | reflexivity]. unfold when.
  destruct (negb _); [| reflexivity].
  rewrite run_bind, download_entire_workflow_run. reflexivity.
Qed.

(** X7.  Once every stage is approved (and the sidebar's progress value is
    in range, as it is in every session reached from a fresh one), any run
    past the intake page shows the completion page instead of the current
    stage, whether or not the export was downloaded: the sidebar sets
    [show_completion_prompt], the generator is not called, and unless "Start
    New SDLC" is pressed nothing else in the session changes. *)
Theorem completed_workflow_shows_completion_page (w : run_input) (s : session) :
  (approved_count s ≤ total_steps)%nat →
  current_step s ≠ "api_input" →
  check_workflow_completion s = true →
  calls_generator (trace (app w s)) = false ∧
  Success "🎉 SDLC workflow completed and downloaded successfully!" ∈ trace (app w s) ∧
  (clicked w ≠ Some BtnStartNew →
     state (app w s) = set_show_completion_prompt true s).
Proof.
  intros Hrange Hcur Hdone. apply progress_in_range_iff in Hrange.
  assert (state (sidebar w s) = set_show_completion_prompt true s) as Hside.
  { rewrite (proj2 (sidebar_run w s Hrange)), Hdone.
    apply String.eqb_neq in Hcur. rewrite Hcur. reflexivity. }
  rewrite app_run. cbv zeta. rewrite (proj1 (sidebar_run w s Hrange)), Hside.
  cbn [show_completion_prompt set_show_completion_prompt result state trace].
  rewrite render_completion_prompt_run. split; [| split].
  - unfold calls_generator. rewrite existsb_app.
    fold (calls_generator (trace (sidebar w s))). rewrite sidebar_quiet.
    destruct (pressed w BtnStartNew), (pressed w BtnQuit); reflexivity.
  - apply elem_of_app. right.
    destruct (pressed w BtnStartNew), (pressed w BtnQuit); cbn [trace]; left.
  - intros Hc. rewrite (pressed_false _ _ Hc).
    destruct (pressed w BtnQuit); reflexivity.
Qed.

Lemma completed_workflow_shows_completion_page_witness :
  state (app (demo_input None) finished_session)
  = set_show_completion_prompt true finished_session.
Proof.
  refine (proj2 (proj2
    (completed_workflow_shows_completion_page (demo_input None) finished_session _ _ _)) _).
  - apply progress_in_range_iff. vm_compute. reflexivity.
  - discriminate.
  - vm_compute. reflexivity.
  - discriminate.
Defined.

(** ** How a run moves through the workflow *)

Lemma app_state (w : run_input) (s : session) :
  let s1 := state (sidebar w s) in
  state (app w s) =
  match result (sidebar w s) with
  | inl _ =>
      if show_completion_prompt s1
      then (if pressed w BtnStartNew then reset s1 else s1)
      else state (render_step w (current_step s1) s1)
  | inr _ => s1
  end.
Proof.
  cbv zeta. rewrite app_run. cbv zeta.
  destruct (result (sidebar w s)); [| reflexivity]. cbn [state].
  destruct (show_completion_prompt _); [| reflexivity].
  rewrite render_completion_prompt_run.
  destruct (pressed w BtnStartNew), (pressed w BtnQuit); reflexivity.
Qed.

Lemma render_step_state (w : run_input) (c : string) (s : session) :
  state (render_step w c s) =
  match find_step c with
  | None => s
  | Some _ =>
      if String.eqb c "api_input" then state (render_api_input w s)
      else state (render_sdlc_step w c s)
  end.
Proof.
  unfold render_step. destruct (find_step c); [| reflexivity].
  rewrite state_bind. cbn [emit result state].
  destruct (String.eqb c "api_input"); reflexivity.
Qed.

Lemma sidebar_fields (w : run_input) (s : session) :
  let s1 := state (sidebar w s) in
  current_step s1 = current_step s ∧ approved s1 = approved s ∧
  feedback s1 = feedback s ∧ generated_content s1 = generated_content s ∧
  project_prompt s1 = project_prompt s ∧ api_key s1 = api_key s.
Proof.
  cbv zeta. destruct (sidebar_state w s) as [-> | ->]; cbn; tauto.
Qed.

Lemma generate_if_needed_state (w : run_input) (c : string) (s : session) :
  state (generate_if_needed w c s) = s ∨
  ∃ v, state (generate_if_needed w c s) = set_generated_content c v s.
Proof.
  destruct (project_prompt s) as [p|] eqn:Hp.
  - destruct (generate_if_needed_post w c s) as (_ & _ & H); [rewrite Hp; eauto | exact H].
  - left. destruct (needs_generation c s) eqn:Hn.
    + unfold generate_if_needed, build_prompt.
      rewrite run_bind_get, Hn. unfold when. rewrite run_bind, run_bind_get, Hp.
      reflexivity.
    + rewrite (generate_if_needed_skip w c s Hn). reflexivity.
Qed.

Lemma move_to_next_step_fields (s : session) :
  let s' := state (move_to_next_step s) in
  approved s' = approved s ∧ feedback s' = feedback s ∧
  generated_content s' = generated_content s ∧
  show_completion_prompt s' = show_completion_prompt s ∧
  project_prompt s' = project_prompt s ∧ api_key s' = api_key s.
Proof.
  apply (move_to_next_step_preserves
           (λ s', approved s' = approved s ∧ feedback s' = feedback s ∧
                  generated_content s' = generated_content s ∧
                  show_completion_prompt s' = show_completion_prompt s ∧
                  project_prompt s' = project_prompt s ∧ api_key s' = api_key s));
    [intros v s' H; exact H | tauto].
Qed.

Lemma move_to_next_step_current (s : session) :
  current_step (state (move_to_next_step s)) = current_step s ∨
  ∃ i, step_ids !! i = Some (current_step s) ∧
       step_ids !! S i = Some (current_step (state (move_to_next_step s))).
Proof.
  destruct (decide (current_step s ∈ step_ids)) as [Hin | Hnin].
  - apply list_elem_of_lookup_1 in Hin as [i Hi].
    rewrite (move_to_next_step_run s i Hi).
    destruct (step_ids !! S i) as [next|] eqn:Hnext; [| left; reflexivity].
    right. exists i. split; [exact Hi | exact Hnext].
  - left. unfold move_to_next_step. rewrite run_bind_get, (index_of_None _ Hnin).
    reflexivity.
Qed.

Lemma submit_clicked_state (c text : string) (s : session) :
  state (submit_clicked c text s) =
  if truthy text then set_approved c false (set_feedback c text s) else s.
Proof.
  unfold submit_clicked. destruct (truthy text); [| reflexivity].
  rewrite !run_bind_modify. reflexivity.
Qed.

Lemma render_sdlc_step_current (w : run_input) (c : string) (s : session) :
  current_step s = c →
  current_step (state (render_sdlc_step w c s)) = c ∨
  (clicked w = Some (BtnApprove c) ∧
   ∃ i, step_ids !! i = Some c ∧
        step_ids !! S i = Some (current_step (state (render_sdlc_step w c s)))).
Proof.
  intros Hc. rewrite render_sdlc_step_state. cbv zeta.
  assert (current_step (state (generate_if_needed w c s)) = c) as Hgen
    by (destruct (generate_if_needed_state w c s) as [-> | [v ->]]; exact Hc).
  destruct (result (generate_if_needed w c s)); [| left; exact Hgen].
  destruct (pressed w (BtnApprove c)) eqn:Ha.
  - unfold approve_clicked. rewrite run_bind_modify.
    destruct (move_to_next_step_current
                (set_approved c true (state (generate_if_needed w c s))))
      as [H | (i & Hi & Hnext)]; cbn [current_step set_approved] in *.
    + left. congruence.
    + right. split; [apply pressed_true, Ha |]. exists i. rewrite <- Hgen at 1.
      split; assumption.
  - left. destruct (pressed w (BtnSubmit c)); [| exact Hgen].
    rewrite submit_clicked_state. destruct (truthy _); exact Hgen.
Qed.

Lemma render_api_input_current (w : run_input) (s : session) :
  current_step (state (render_api_input w s)) = current_step s ∨
  (clicked w = Some BtnStart ∧
   current_step (state (render_api_input w s)) = "user_stories").
Proof.
  unfold render_api_input. rewrite run_bind_modify. unfold when.
  destruct (pressed w BtnStart) eqn:Hp; [| left; reflexivity].
  destruct (truthy (api_key_input w)); cbn [negb]; [| left; reflexivity].
  destruct (truthy (project_input w)); cbn [negb]; [| left; reflexivity].
  right. split; [apply pressed_true, Hp |]. rewrite run_bind_modify. reflexivity.
Qed.

(** The only ways [current_step] changes in a run. *)
Lemma app_current_step_cases (w : run_input) (s : session) :
  let c := current_step s in
  let c' := current_step (state (app w s)) in
  c' = c ∨
  (clicked w = Some BtnStartNew ∧ c' = "api_input") ∨
  (clicked w = Some BtnStart ∧ c = "api_input" ∧ c' = "user_stories") ∨
  (clicked w = Some (BtnApprove c) ∧ c ≠ "api_input" ∧
   ∃ i, step_ids !! i = Some c ∧ step_ids !! S i = Some c').
Proof.
  cbv zeta. rewrite app_state. cbv zeta.
  destruct (sidebar_fields w s) as (Hcur & _). cbv zeta in Hcur.
  destruct (result (sidebar w s)); [| left; exact Hcur].
  destruct (show_completion_prompt _).
  - destruct (pressed w BtnStartNew) eqn:Hp; [| left; exact Hcur].
    right. left. split; [apply pressed_true, Hp | reflexivity].
  - rewrite render_step_state, Hcur. destruct (find_step _); [| left; exact Hcur].
    destruct (String.eqb_spec (current_step s) "api_input") as [Heq | Hne].
    + destruct (render_api_input_current w (state (sidebar w s))) as [H | [Hc H]].
      * left. congruence.
      * right. right. left. auto.
    + destruct (render_sdlc_step_current w (current_step s) (state (sidebar w s)) Hcur)
        as [H | [Hc H]].
      * left. exact H.
      * right. right. right. auto.
Qed.

Lemma index_of_Some (l : list step) (x : string) (i : nat) :
  index_of x l = Some i → (id <$> l) !! i = Some x.
Proof.
  revert i. induction l as [|[k ? ? ?] l IH]; intros i; [discriminate |].
  cbn [index_of id]. destruct (String.eqb_spec k x) as [-> | Hne].
  - intros [= <-]. reflexivity.
  - destruct (index_of x l) as [j|]; [| discriminate].
    intros [= <-]. rewrite fmap_cons. cbn. apply IH. reflexivity.
Qed.

(** X8.  A run never moves the workflow backwards and never skips a stage:
    unless "Start New SDLC" is pressed, the registry position of the current
    step after the run is the same as before or the next one.  (The stage
    list in the sidebar does not navigate.) *)
Theorem no_backward_navigation (w : run_input) (s : session) (i : nat) :
  clicked w ≠ Some BtnStartNew →
  current_index s = Some i →
  current_index (state (app w s)) = Some i ∨
  current_index (state (app w s)) = Some (S i).
Proof.
  intros Hclick Hi. unfold current_index in *.
  destruct (app_current_step_cases w s) as [H | [[H _] | [(_ & Hc & H) | (_ & _ & j & Hj & H)]]];
    cbv zeta in *.
  - left. rewrite H. exact Hi.
  - contradiction.
  - right. rewrite H. rewrite Hc in Hi. vm_compute in Hi. injection Hi as <-.
    vm_compute. reflexivity.
  - right. apply index_of_Some in Hi. fold step_ids in Hi.
    assert (j = i) as -> by (eapply NoDup_lookup; [apply step_ids_NoDup | eassumption..]).
    apply index_of_lookup; [apply step_ids_NoDup | exact H].
Qed.

Lemma no_backward_navigation_witness :
  current_index
    (state (app (demo_input (Some (BtnApprove "user_stories"))) demo_session)) = Some 1
  ∨ current_index
    (state (app (demo_input (Some (BtnApprove "user_stories"))) demo_session)) = Some 2.
Proof.
  apply (no_backward_navigation
           (demo_input (Some (BtnApprove "user_stories"))) demo_session 1).
  - discriminate.
  - reflexivity.
Defined.

(** ** What a run may change *)

Lemma approve_clicked_fields (c : string) (s : session) :
  let s' := state (approve_clicked c s) in
  approved s' = <[c := true]> (approved s) ∧ feedback s' = feedback s ∧
  generated_content s' = generated_content s.
Proof.
  cbv zeta. unfold approve_clicked. rewrite run_bind_modify.
  destruct (move_to_next_step_fields (set_approved c true s)) as (Ha & Hf & Hg & _).
  cbv zeta in *. rewrite Ha, Hf, Hg. cbn. tauto.
Qed.

Lemma render_sdlc_step_other (w : run_input) (c k : string) (s : session) :
  k ≠ c →
  let s' := state (render_sdlc_step w c s) in
  generated_content s' !! k = generated_content s !! k ∧
  approved s' !! k = approved s !! k ∧
  feedback s' !! k = feedback s !! k.
Proof.
  intros Hk. cbv zeta. rewrite render_sdlc_step_state. cbv zeta.
  assert (generated_content (state (generate_if_needed w c s)) !! k
            = generated_content s !! k ∧
          approved (state (generate_if_needed w c s)) = approved s ∧
          feedback (state (generate_if_needed w c s)) = feedback s) as (Hg & Ha & Hf).
  { destruct (generate_if_needed_state w c s) as [-> | [v ->]]; [tauto |].
    cbn [generated_content approved feedback set_generated_content].
    rewrite lookup_insert_ne by congruence. tauto. }
  destruct (result (generate_if_needed w c s)); [| rewrite Ha, Hf; tauto].
  destruct (pressed w (BtnApprove c)).
  - destruct (approve_clicked_fields c (state (generate_if_needed w c s)))
      as (Ha' & Hf' & Hg'). cbv zeta in *. rewrite Ha', Hf', Hg', Ha, Hf.
    rewrite lookup_insert_ne by congruence. tauto.
  - destruct (pressed w (BtnSubmit c)); [| rewrite Ha, Hf; tauto].
    rewrite submit_clicked_state. destruct (truthy _); [| rewrite Ha, Hf; tauto].
    cbn [generated_content approved feedback set_approved set_feedback].
    rewrite !lookup_insert_ne by congruence. rewrite Ha, Hf. tauto.
Qed.

(** X9.  A run only works on the current stage: unless "Start New SDLC" is
    pressed, the content, the approval and the feedback of every other stage
    are after the run what they were before. *)
Theorem other_stages_untouched (w : run_input) (s : session) (k : string) :
  k ≠ current_step s →
  clicked w ≠ Some BtnStartNew →
  let s' := state (app w s) in
  generated_content s' !! k = generated_content s !! k ∧
  approved s' !! k = approved s !! k ∧
  feedback s' !! k = feedback s !! k.
Proof.
  intros Hk Hclick. cbv zeta. rewrite app_state. cbv zeta.
  destruct (sidebar_fields w s) as (Hcur & Ha & Hf & Hg & _). cbv zeta in *.
  destruct (result (sidebar w s)); [| rewrite Ha, Hf, Hg; tauto].
  rewrite (pressed_false _ _ Hclick).
  destruct (show_completion_prompt _); [rewrite Ha, Hf, Hg; tauto |].
  rewrite render_step_state, Hcur.
  destruct (find_step _); [| rewrite Ha, Hf, Hg; tauto].
  destruct (String.eqb _ _).
  - destruct (render_api_input_stores w (state (sidebar w s))) as (_ & _ & Ha' & Hf' & Hg' & _).
    cbv zeta in *. rewrite Ha', Hf', Hg', Ha, Hf, Hg. tauto.
  - destruct (render_sdlc_step_other w (current_step s) k (state (sidebar w s)) Hk)
      as (Hg' & Ha' & Hf'). cbv zeta in *. rewrite Hg', Ha', Hf', Ha, Hf, Hg. tauto.
Qed.

Lemma other_stages_untouched_witness :
  generated_content
    (state (app (demo_input (Some (BtnApprove "user_stories"))) demo_session))
    !! "design_docs" = None.
Proof.
  refine (proj1 (other_stages_untouched
            (demo_input (Some (BtnApprove "user_stories"))) demo_session "design_docs" _ _));
    discriminate.
Defined.

(** X10.  An [approved] entry becomes [True] in a run only through the
    Approve button of that very stage, pressed while it is the current
    stage. *)
Theorem approved_only_by_approve (w : run_input) (s : session) (k : string) :
  approved (state (app w s)) !! k = Some true →
  approved s !! k = Some true ∨
  (clicked w = Some (BtnApprove k) ∧ current_step s = k).
Proof.
  intros Hafter.
  destruct (decide (approved s !! k = Some true)) as [Hbefore | Hbefore]; [left; exact Hbefore |].
  right. destruct (decide (clicked w = Some (BtnApprove k))) as [Hclick | Hclick].
  - split; [exact Hclick |].
    destruct (decide (current_step s = k)) as [Hcur | Hcur]; [exact Hcur |].
    destruct (unrendered_approve_is_ignored w k s Hclick Hcur) as [Ha _]. congruence.
  - exfalso. revert Hafter.
    apply (app_preserves (λ s', approved s' !! k ≠ Some true) w);
      try (intros; assumption).
    + intros _ s' _. cbn [approved reset]. rewrite lookup_empty. discriminate.
    + intros s0 _ Hp. apply pressed_true in Hp.
      apply approve_clicked_preserves; [| intros; assumption].
      intros s' Hs'. cbn [approved set_approved].
      rewrite lookup_insert_ne by congruence. exact Hs'.
    + intros s0 _ _. apply submit_clicked_preserves. intros _ s' Hs'.
      cbn [approved set_approved set_feedback]. rewrite lookup_insert.
      case_decide; [discriminate | exact Hs'].
Qed.

Lemma approved_only_by_approve_witness :
  approved demo_session !! "user_stories" = Some true ∨
  (clicked (demo_input (Some (BtnApprove "user_stories"))) = Some (BtnApprove "user_stories")
   ∧ current_step demo_session = "user_stories").
Proof.
  apply (approved_only_by_approve (demo_input (Some (BtnApprove "user_stories")))).
  vm_compute. reflexivity.
Defined.

(** ** Approval, feedback and completion *)

Lemma completion_all_approved (s : session) :
  check_workflow_completion s = true ↔
  ∀ k, stage_key k → approved s !! k = Some true.
Proof.
  unfold check_workflow_completion. rewrite completion_filter, Nat.eqb_eq.
  change (length WORKFLOW_STEPS - 1) with (length non_intake_steps).
  rewrite filter_length_all, Forall_forall. split.
  - intros Hall k Hk. apply stage_key_non_intake, list_elem_of_fmap in Hk as (st & -> & Hst).
    apply approved_get_true, Hall, Hst.
  - intros Hall st Hst. apply approved_get_true, Hall, stage_key_non_intake.
    apply list_elem_of_fmap. eauto.
Qed.

(** X11.  Submitting non-empty feedback on a stage makes the workflow
    incomplete, whatever was approved before. *)
Theorem feedback_reopens_workflow (c text : string) (s : session) :
  stage_key c →
  text ≠ "" →
  check_workflow_completion (state (submit_clicked c text s)) = false.
Proof.
  intros Hc Ht. rewrite submit_clicked_state. apply truthy_true in Ht. rewrite Ht.
  apply not_true_is_false. intros Hdone.
  pose proof (proj1 (completion_all_approved _) Hdone c Hc) as Ha.
  cbn [approved set_approved set_feedback] in Ha. rewrite lookup_insert_eq in Ha.
  discriminate.
Qed.

Lemma feedback_reopens_workflow_witness :
  check_workflow_completion
    (state (submit_clicked "monitoring" "add alerting" finished_session)) = false.
Proof.
  apply feedback_reopens_workflow; [| discriminate].
  split; [in_registry | discriminate].
Defined.

(** X12.  Approving a stage when every other stage is already approved
    completes the workflow. *)
Theorem last_approval_completes (c : string) (s : session) :
  stage_key c →
  (∀ k, stage_key k → k ≠ c → approved s !! k = Some true) →
  check_workflow_completion (state (approve_clicked c s)) = true.
Proof.
  intros Hc Hothers. apply completion_all_approved. intros k Hk.
  rewrite (proj1 (approve_clicked_fields c s)). rewrite lookup_insert.
  case_decide; [reflexivity | apply Hothers; [exact Hk | congruence]].
Qed.

Lemma finished_session_approved (k : string) :
  stage_key k → approved finished_session !! k = Some true.
Proof.
  intros Hk. apply stage_key_non_intake in Hk.
  unfold non_intake_steps in Hk. cbn in Hk. rewrite !elem_of_cons, elem_of_nil in Hk.
  repeat (destruct Hk as [-> | Hk]; [vm_compute; reflexivity |]). destruct Hk.
Qed.

Lemma last_approval_completes_witness :
  check_workflow_completion (state (approve_clicked "monitoring" finished_session)) = true.
Proof.
  apply last_approval_completes.
  - split; [in_registry | discriminate].
  - intros k Hk _. apply finished_session_approved, Hk.
Defined.

(** ** Edge cases *)

(** X13.  A step id that is not in the registry: [render_step] shows
    "Invalid step" and changes nothing, and [move_to_next_step], were such an
    id the current step, raises StopIteration without changing the session. *)
Theorem unknown_step_id (w : run_input) (step_id : string) (s : session) :
  step_id ∉ step_ids →
  render_step w step_id s = Outcome (inl tt) s [Error "Invalid step"] ∧
  (current_step s = step_id →
     move_to_next_step s = Outcome (inr (Raise "StopIteration")) s []).
Proof.
  intros Hnin. split.
  - unfold render_step. rewrite (find_step_None _ Hnin). reflexivity.
  - intros Hcur. unfold move_to_next_step. rewrite run_bind_get, Hcur.
    rewrite (index_of_None _ Hnin). reflexivity.
Qed.

Lemma unknown_step_id_witness :
  render_step (demo_input None) "release_notes" demo_session
  = Outcome (inl tt) demo_session [Error "Invalid step"].
Proof.
  refine (proj1 (unknown_step_id (demo_input None) "release_notes" demo_session _)).
  apply (bool_decide_unpack _). vm_compute. reflexivity.
Defined.

(** X14.  Building a prompt fails in exactly one case, a missing project
    description (AttributeError); with a description it succeeds for every
    step id and every text of the description and of the feedback, braces
    included.  It never changes the session and shows nothing. *)
Theorem build_prompt_total (step_id : string) (s : session) :
  state (build_prompt step_id s) = s ∧
  trace (build_prompt step_id s) = [] ∧
  (project_prompt s = None →
     result (build_prompt step_id s) = inr (Raise "AttributeError")) ∧
  (is_Some (project_prompt s) → ∃ prompt, result (build_prompt step_id s) = inl prompt).
Proof.
  rewrite build_prompt_run at 1 2. cbn [state trace].
  split; [reflexivity |]. split; [reflexivity |]. split; [| apply build_prompt_ok].
  intros Hp. unfold build_prompt. rewrite run_bind_get, Hp. reflexivity.
Qed.

(** X15.  For code_review, security_review, qa_testing and monitoring, which
    have no entry in PROMPT_TEMPLATES, the prompt sent to the generator does
    not contain the project description: it is empty, or only the feedback
    paragraph when the stage has non-empty feedback. *)
Theorem untemplated_stage_prompt (step_id : string) (s : session) :
  step_id ∈ untemplated_steps →
  is_Some (project_prompt s) →
  stage_key step_id ∧
  result (build_prompt step_id s) =
    inl (match feedback s !! step_id with
         | Some text => if truthy text then nl +:+ nl +:+ "Feedback: " +:+ text else ""
         | None => ""
         end).
Proof.
  intros Hin [description Hp].
  assert (stage_key step_id ∧ PROMPT_TEMPLATES !! step_id = None) as [Hkey Ht].
  { unfold untemplated_steps in Hin. rewrite !elem_of_cons, elem_of_nil in Hin.
    destruct Hin as [-> | [-> | [-> | [-> | []]]]];
      (split; [split; [in_registry | discriminate] | vm_compute; reflexivity]). }
  split; [exact Hkey |].
  unfold build_prompt. rewrite run_bind_get, Hp, Ht. cbv zeta. cbn [default format format_from].
  destruct (feedback s !! step_id) as [text|]; [destruct (truthy text) |]; reflexivity.
Qed.

Lemma untemplated_stage_prompt_witness :
  result (build_prompt "code_review" demo_session) = inl "".
Proof.
  refine (proj2 (untemplated_stage_prompt "code_review" demo_session _ _)).
  - unfold untemplated_steps. apply list_elem_of_here.
  - eexists. reflexivity.
Defined.

(** X16.  Assembling the export twice in a row gives the same session as
    assembling it once, and the same project and steps in the document (only
    the timestamp can differ). *)
Theorem download_twice (w1 w2 : run_input) (s : session) :
  let o1 := download_entire_workflow w1 s in
  let o2 := download_entire_workflow w2 (state o1) in
  state o2 = state o1 ∧
  ∃ d1 d2, result o1 = inl d1 ∧ result o2 = inl d2 ∧
           project d2 = project d1 ∧ steps d2 = steps d1.
Proof.
  cbv zeta. rewrite !download_entire_workflow_run. cbn [result state].
  destruct (check_workflow_completion s) eqn:Hdone.
  - change (check_workflow_completion (set_show_completion_prompt true s))
      with (check_workflow_completion s). rewrite Hdone.
    split; [reflexivity |]. do 2 eexists. repeat split; reflexivity.
  - rewrite Hdone. split; [reflexivity |]. do 2 eexists. repeat split; reflexivity.
Qed.

(** X17.  Pressing Approve on a stage that still has non-empty feedback
    regenerates the stage in the same run, before the approval: what ends up
    stored and approved is the text returned by that new generator call. *)
Theorem approve_with_pending_feedback (w : run_input) (c prompt : string) (s : session) :
  feedback_pending c s = true →
  result (build_prompt c s) = inl prompt →
  clicked w = Some (BtnApprove c) →
  let o := render_sdlc_step w c s in
  calls_generator (trace o) = true ∧
  generated_content (state o) !! c = Some (generated_text w c prompt s) ∧
  approved (state o) !! c = Some true.
Proof.
  intros Hfb Hp Hclick. cbv zeta.
  assert (needs_generation c s = true) as Hn
    by (unfold needs_generation; rewrite Hfb; apply orb_true_r).
  split.
  - rewrite render_sdlc_step_calls, (generate_if_needed_run w c s prompt Hn Hp).
    rewrite generate_with_groq_run. reflexivity.
  - rewrite render_sdlc_step_state. cbv zeta.
    rewrite (generate_if_needed_run w c s prompt Hn Hp). cbn [result state].
    apply pressed_true in Hclick. rewrite Hclick.
    destruct (approve_clicked_fields c
                (set_generated_content c (generated_text w c prompt s) s))
      as (Ha & _ & Hg). cbv zeta in *. rewrite Ha, Hg.
    cbn [generated_content approved set_generated_content].
    rewrite !lookup_insert_eq. split; reflexivity.
Qed.

Lemma approve_with_pending_feedback_witness :
  approved
    (state (render_sdlc_step (demo_input (Some (BtnApprove "user_stories")))
                             "user_stories" revising_session))
    !! "user_stories" = Some true.
Proof.
  refine (proj2 (proj2
    (approve_with_pending_feedback
       (demo_input (Some (BtnApprove "user_stories"))) "user_stories"
       ("Generate comprehensive user stories for: Smart pen with IoT capabilities. Include acceptance criteria."
          +:+ nl +:+ nl +:+ "Feedback: make it shorter")
       revising_session _ _ _))).
  - vm_compute. reflexivity.
  - vm_compute. reflexivity.
  - reflexivity.
Defined.

(** ** Approving every stage in turn *)

Lemma stage_key_index (k : string) :
  stage_key k ↔ ∃ j : nat, (1 ≤ j)%nat ∧ step_ids !! j = Some k.
Proof.
  split.
  - intros [Hin Hne]. apply list_elem_of_lookup_1 in Hin as [j Hj].
    exists j. split; [| exact Hj]. destruct j; [| lia].
    vm_compute in Hj. congruence.
  - intros (j & Hj & Hk). destruct j as [|j]; [lia |].
    eapply next_is_stage_key, Hk.
Qed.

(** A run on the page of a stage that is not approved yet. *)
Lemma stage_page_state (w : run_input) (s : session) (c : string) :
  wf s →
  show_completion_prompt s = false →
  stage_key c →
  current_step s = c →
  approved s !! c ≠ Some true →
  let s1 := state (generate_if_needed w c s) in
  (s1 = s ∨ ∃ v, s1 = set_generated_content c v s) ∧
  state (app w s) =
    if pressed w (BtnApprove c) then state (approve_clicked c s1)
    else if pressed w (BtnSubmit c)
         then state (submit_clicked c (feedback_input w c) s1)
         else s1.
Proof.
  intros Hwf Hshow Hkey Hcur Hnot. cbv zeta.
  assert (check_workflow_completion s = false) as Hopen.
  { apply not_true_is_false. intros Hdone. apply Hnot.
    apply (proj1 (completion_all_approved s) Hdone c Hkey). }
  destruct (sidebar_run w s (wf_progress_in_range s Hwf)) as [Hres Hside].
  rewrite Hopen, andb_false_r in Hside.
  destruct (generate_if_needed_post w c s) as (Hr & _ & Hst).
  { apply (at_stage_described c s (proj2 Hkey)). split; assumption. }
  split; [exact Hst |].
  rewrite app_state. cbv zeta. rewrite Hres, Hside, Hshow, render_step_state, Hcur.
  destruct (find_step_Some c (proj1 Hkey)) as (st & -> & _).
  rewrite (proj2 (String.eqb_neq _ _) (proj2 Hkey)).
  rewrite render_sdlc_step_state. cbv zeta. rewrite Hr. reflexivity.
Qed.

Lemma approve_run (w : run_input) (s : session) (c : string) (i : nat) :
  wf s →
  show_completion_prompt s = false →
  step_ids !! i = Some c → (1 ≤ i)%nat →
  current_step s = c →
  approved s !! c ≠ Some true →
  clicked w = Some (BtnApprove c) →
  let s' := state (app w s) in
  approved s' = <[c := true]> (approved s) ∧
  show_completion_prompt s' = false ∧
  current_step s' = default c (step_ids !! S i).
Proof.
  intros Hwf Hshow Hi Hpos Hcur Hnot Hclick. cbv zeta.
  assert (stage_key c) as Hkey by (apply stage_key_index; eauto).
  destruct (stage_page_state w s c Hwf Hshow Hkey Hcur Hnot) as [Hst ->].
  rewrite (proj2 (pressed_true _ _) Hclick).
  set (s1 := state (generate_if_needed w c s)) in *.
  assert (approved s1 = approved s ∧ show_completion_prompt s1 = false ∧
          current_step s1 = c) as (Ha1 & Hs1 & Hc1)
    by (destruct Hst as [-> | [v ->]]; cbn; auto).
  unfold approve_clicked. rewrite run_bind_modify.
  rewrite (move_to_next_step_run _ i) by (cbn [current_step set_approved]; congruence).
  destruct (step_ids !! S i); cbn; rewrite ?Ha1, ?Hs1, ?Hc1; auto.
Qed.

Lemma idle_run (w : run_input) (s : session) (c : string) :
  wf s →
  show_completion_prompt s = false →
  stage_key c →
  current_step s = c →
  approved s !! c ≠ Some true →
  clicked w = None →
  let s' := state (app w s) in
  approved s' = approved s ∧
  show_completion_prompt s' = false ∧
  current_step s' = c.
Proof.
  intros Hwf Hshow Hkey Hcur Hnot Hclick. cbv zeta.
  destruct (stage_page_state w s c Hwf Hshow Hkey Hcur Hnot) as [Hst ->].
  rewrite !pressed_false by (rewrite Hclick; discriminate).
  destruct Hst as [-> | [v ->]]; cbn; auto.
Qed.

Lemma progressed_all_approved (i : nat) (s : session) :
  (10 ≤ i)%nat → progressed i s → all_approved s.
Proof.
  intros Hi (Hwf & _ & Hcur & Hdone & _).
  replace (i `min` 9) with 9 in Hcur by lia.
  split; [exact Hwf |]. split.
  - change (step_ids !! 9) with (Some "monitoring") in Hcur. congruence.
  - apply completion_all_approved. intros k Hk.
    apply stage_key_index in Hk as (j & Hj & Hk). apply (Hdone j); [exact Hj | | exact Hk].
    apply lookup_lt_Some in Hk. change (length step_ids) with 10 in Hk. lia.
Qed.

Lemma progressed_step (w : run_input) (s : session) (c : string) (i : nat) :
  (1 ≤ i)%nat →
  step_ids !! i = Some c →
  clicked w = Some (BtnApprove c) →
  progressed i s → progressed (S i) (state (app w s)).
Proof.
  intros Hpos Hi Hclick (Hwf & Hshow & Hcur & Hdone & Htodo).
  assert (i < 10)%nat as Hlt by (apply lookup_lt_Some in Hi; exact Hi).
  replace (i `min` 9) with i in Hcur by lia.
  assert (current_step s = c) as Hc by congruence.
  assert (approved s !! c = None) as Hnone by (apply (Htodo i); [lia | exact Hi]).
  destruct (approve_run w s c i Hwf Hshow Hi Hpos Hc) as (Ha & Hs' & Hc');
    [rewrite Hnone; discriminate | exact Hclick |]. cbv zeta in *.
  split; [apply app_safe, Hwf |]. split; [exact Hs' |]. split; [| split].
  - rewrite Hc'. destruct (decide (i = 9)) as [-> | Hne].
    + rewrite (lookup_ge_None_2 step_ids 10) by (vm_compute; lia). exact Hi.
    + replace (S i `min` 9) with (S i) by lia.
      destruct (lookup_lt_is_Some_2 step_ids (S i)) as [next Hnext];
        [change (length step_ids) with 10; lia |].
      rewrite Hnext. reflexivity.
  - intros j k Hj1 Hj2 Hk. rewrite Ha, lookup_insert.
    case_decide; [reflexivity |]. apply (Hdone j); [exact Hj1 | | exact Hk].
    destruct (decide (j = i)) as [-> | ?]; [congruence | lia].
  - intros j k Hj Hk. rewrite Ha, lookup_insert_ne; [apply (Htodo j); [lia | exact Hk] |].
    intros ->. assert (i = j); [| lia].
    exact (NoDup_lookup _ _ _ _ step_ids_NoDup Hi Hk).
Qed.

Lemma progressed_idle (w : run_input) (s : session) (i : nat) :
  (1 ≤ i)%nat → (i < 10)%nat →
  clicked w = None →
  progressed i s → progressed i (state (app w s)).
Proof.
  intros Hpos Hlt Hclick (Hwf & Hshow & Hcur & Hdone & Htodo).
  replace (i `min` 9) with i in * by lia.
  assert (stage_key (current_step s)) as Hkey by (apply stage_key_index; eauto).
  assert (approved s !! current_step s = None) as Hnone
    by (apply (Htodo i); [lia | exact Hcur]).
  destruct (idle_run w s (current_step s) Hwf Hshow Hkey eq_refl) as (Ha & Hs' & Hc');
    [rewrite Hnone; discriminate | exact Hclick |]. cbv zeta in *.
  split; [apply app_safe, Hwf |]. split; [exact Hs' |].
  rewrite Ha, Hc'. replace (i `min` 9) with i by lia. auto.
Qed.

(** The completion page: nothing but "Start New SDLC" changes the session. *)
Lemma all_approved_run (w : run_input) (s : session) :
  all_approved s →
  clicked w ≠ Some BtnStartNew →
  state (app w s) = set_show_completion_prompt true s.
Proof.
  intros (Hwf & Hcur & Hdone) Hclick.
  destruct (sidebar_run w s (wf_progress_in_range s Hwf)) as [Hres Hside].
  rewrite Hdone, Hcur in Hside. cbn [String.eqb Ascii.eqb Bool.eqb negb andb] in Hside.
  rewrite app_state. cbv zeta. rewrite Hres, Hside.
  cbn [show_completion_prompt set_show_completion_prompt].
  rewrite (pressed_false _ _ Hclick). reflexivity.
Qed.

Lemma all_approved_shown (s : session) :
  all_approved s → all_approved (set_show_completion_prompt true s).
Proof.
  intros (Hwf & Hcur & Hdone). split; [apply wf_set_show, Hwf |]. split; assumption.
Qed.

Lemma all_approved_runs (later : list run_input) (s : session) :
  all_approved s →
  Forall (λ w, clicked w ≠ Some BtnStartNew) later →
  runs later s = match later with
                 | [] => s
                 | _ :: _ => set_show_completion_prompt true s
                 end.
Proof.
  intros Hs Hlater. revert s Hs.
  induction Hlater as [|w later Hw _ IH]; intros s Hs; [reflexivity |].
  change (runs (w :: later) s) with (runs later (state (app w s))).
  rewrite (all_approved_run w s Hs Hw).
  rewrite (IH _ (all_approved_shown s Hs)). destruct later; reflexivity.
Qed.

Lemma phase_idle (w : run_input) (s : session) (i : nat) :
  (1 ≤ i)%nat → clicked w = None → phase i s → phase i (state (app w s)).
Proof.
  intros Hpos Hclick [[Hlt Hs] | [Hge Hs]].
  - left. split; [exact Hlt |]. apply progressed_idle; assumption.
  - right. split; [exact Hge |].
    rewrite (all_approved_run w s Hs) by (rewrite Hclick; discriminate).
    apply all_approved_shown, Hs.
Qed.

Lemma phase_approve (w : run_input) (s : session) (c : string) (i : nat) :
  (1 ≤ i)%nat →
  step_ids !! i = Some c →
  clicked w = Some (BtnApprove c) →
  phase i s → phase (S i) (state (app w s)).
Proof.
  intros Hpos Hi Hclick [[Hlt Hs] | [Hge Hs]].
  - pose proof (progressed_step w s c i Hpos Hi Hclick Hs) as Hnext.
    destruct (decide (S i < 10)%nat) as [Hlt' | Hge'].
    + left. split; assumption.
    + right. split; [lia |]. apply (progressed_all_approved (S i)); [lia | exact Hnext].
  - apply lookup_lt_Some in Hi. change (length step_ids) with 10 in Hi. lia.
Qed.

Lemma clicks_cons (w : run_input) (ws : list run_input) :
  clicks (w :: ws) = match clicked w with
                     | Some b => b :: clicks ws
                     | None => clicks ws
                     end.
Proof. unfold clicks. cbn. destruct (clicked w); reflexivity. Qed.

Lemma approvals_from (i : nat) (c : string) :
  step_ids !! i = Some c →
  BtnApprove <$> drop i step_ids = BtnApprove c :: (BtnApprove <$> drop (S i) step_ids).
Proof. intros Hi. rewrite (drop_S _ _ _ Hi). reflexivity. Qed.

Lemma approvals_chain (ws : list run_input) :
  ∀ (i : nat) (s : session),
    (1 ≤ i)%nat →
    phase i s →
    clicks ws = BtnApprove <$> drop i step_ids →
    all_approved (runs ws s).
Proof.
  induction ws as [|w ws IH]; intros i s Hpos Hs Hclicks.
  - destruct Hs as [[Hlt _] | [_ Hs]]; [| exact Hs].
    destruct (lookup_lt_is_Some_2 step_ids i) as [c Hc];
      [change (length step_ids) with 10; exact Hlt |].
    rewrite (approvals_from i c Hc) in Hclicks. discriminate.
  - change (runs (w :: ws) s) with (runs ws (state (app w s))).
    rewrite clicks_cons in Hclicks. destruct (clicked w) as [b|] eqn:Hw.
    + destruct (step_ids !! i) as [c|] eqn:Hc.
      * rewrite (approvals_from i c Hc) in Hclicks. injection Hclicks as -> Hrest.
        apply (IH (S i)); [lia | | exact Hrest].
        apply (phase_approve w s c i); assumption.
      * rewrite (drop_ge step_ids i) in Hclicks
          by (apply lookup_ge_None_1, Hc). discriminate.
    + apply (IH i); [exact Hpos | | exact Hclicks]. apply phase_idle; assumption.
Qed.

Lemma on_intake_run (w : run_input) (s : session) :
  on_intake s →
  state (app w s) = state (render_api_input w s).
Proof.
  intros (Hwf & Hshow & Hcur & _).
  destruct (sidebar_run w s (wf_progress_in_range s Hwf)) as [Hres Hside].
  rewrite Hcur in Hside. cbn [String.eqb Ascii.eqb Bool.eqb negb andb] in Hside.
  rewrite app_state. cbv zeta. rewrite Hres, Hside, Hshow, render_step_state, Hcur.
  reflexivity.
Qed.

Lemma on_intake_idle (w : run_input) (s : session) :
  clicked w = None → on_intake s → on_intake (state (app w s)).
Proof.
  intros Hclick Hs. pose proof Hs as (Hwf & Hshow & Hcur & Ha).
  rewrite (on_intake_run w s Hs).
  unfold render_api_input. rewrite run_bind_modify.
  rewrite pressed_false by (rewrite Hclick; discriminate).
  cbn [when mret script_ret state].
  split; [apply wf_set_intake; assumption |]. repeat split; assumption.
Qed.

Lemma on_intake_start (w : run_input) (s : session) :
  clicked w = Some BtnStart →
  api_key_input w ≠ "" → project_input w ≠ "" →
  on_intake s → progressed 1 (state (app w s)).
Proof.
  intros Hclick Hk Hp Hs. pose proof Hs as (Hwf & Hshow & Hcur & Ha).
  rewrite (on_intake_run w s Hs).
  unfold render_api_input. rewrite run_bind_modify.
  rewrite (proj2 (pressed_true _ _) Hclick). unfold when.
  rewrite (proj2 (truthy_true _) Hk), (proj2 (truthy_true _) Hp). cbn [negb].
  rewrite run_bind_modify. cbn [break state].
  split; [apply wf_start; assumption |]. split; [exact Hshow |]. split; [reflexivity |].
  split.
  - intros j k Hj1 Hj2. lia.
  - intros j k _ _. cbn [approved set_current_step set_intake]. rewrite Ha. apply lookup_empty.
Qed.

Lemma start_chain (ws : list run_input) :
  ∀ s : session,
    on_intake s →
    Forall (λ w, clicked w = Some BtnStart →
                 api_key_input w ≠ "" ∧ project_input w ≠ "") ws →
    clicks ws = BtnStart :: approval_clicks →
    all_approved (runs ws s).
Proof.
  induction ws as [|w ws IH]; intros s Hs Hvalid Hclicks; [discriminate |].
  change (runs (w :: ws) s) with (runs ws (state (app w s))).
  apply Forall_cons in Hvalid as [Hw Hvalid].
  rewrite clicks_cons in Hclicks. destruct (clicked w) as [b|] eqn:Hclick.
  - injection Hclicks as -> Hrest. destruct (Hw eq_refl) as [Hk Hp].
    apply (approvals_chain ws 1); [lia | | exact Hrest].
    left. split; [lia |]. apply on_intake_start; assumption.
  - apply IH; [| exact Hvalid | exact Hclicks]. apply on_intake_idle; assumption.
Qed.

(** X18.  The workflow can always be completed.  Take any sequence of runs
    from a fresh session whose button presses are "Start SDLC Workflow"
    (with a non-empty key and description) and then Approve on each stage in
    registry order, with any number of runs without a click in between (the
    re-run that follows every [st.rerun()], among others).  It ends on the
    last stage with every stage approved, whatever the completion service
    returned or failed with on the way; and from the first run after it,
    through every later run that does not press "Start New SDLC", the
    session is that one with [show_completion_prompt] set. *)
Theorem approving_every_stage_completes (ws : list run_input) :
  clicks ws = BtnStart :: approval_clicks →
  Forall (λ w, clicked w = Some BtnStart →
               api_key_input w ≠ "" ∧ project_input w ≠ "") ws →
  let s := runs ws initial_session in
  check_workflow_completion s = true ∧
  current_step s = "monitoring" ∧
  ∀ w later,
    Forall (λ w', clicked w' ≠ Some BtnStartNew) (w :: later) →
    runs (w :: later) s = set_show_completion_prompt true s.
Proof.
  intros Hclicks Hvalid. cbv zeta.
  assert (on_intake initial_session) as Hfresh
    by (split; [apply wf_initial | repeat split]).
  pose proof (start_chain ws initial_session Hfresh Hvalid Hclicks) as Hdone.
  destruct Hdone as (Hwf & Hcur & Hcomplete).
  split; [exact Hcomplete |]. split; [exact Hcur |].
  intros w later Hlater.
  apply (all_approved_runs (w :: later)); [| exact Hlater].
  split; [exact Hwf |]. split; assumption.
Qed.

Lemma approving_every_stage_completes_witness :
  check_workflow_completion
    (runs (demo_input (Some BtnStart)
             :: (non_intake_steps ≫= λ st,
                   [offline_input None; offline_input (Some (BtnApprove (id st)))]))
          initial_session) = true.
Proof.
  refine (proj1 (approving_every_stage_completes
                   (demo_input (Some BtnStart)
                      :: (non_intake_steps ≫= λ st,
                            [offline_input None;
                             offline_input (Some (BtnApprove (id st)))]))
                   _ _)).
  - reflexivity.
  - unfold non_intake_steps. cbn.
    repeat (constructor; [cbn; first [discriminate | intros _; split; discriminate] |]).
    constructor.
Defined.

(** ** The progress bar out of range *)

(** X19.  If more entries of [approved] are [True] than there are stages,
    [st.progress] refuses the value: the run stops in the sidebar with a
    StreamlitAPIException, before the export is assembled and before any
    page is rendered, and the session is left as it was. *)
Theorem progress_overflow_stops_run (w : run_input) (s : session) :
  (total_steps < approved_count s)%nat →
  app w s = Outcome (inr (Raise "StreamlitAPIException")) s [Header "SDLC Workflow"].
Proof.
  intros Hover.
  assert (progress_in_range s = false) as Hp.
  { apply not_true_is_false. intros Hin. apply progress_in_range_iff in Hin. lia. }
  rewrite app_run. cbv zeta. rewrite (sidebar_overflow w s Hp). reflexivity.
Qed.

Lemma progress_overflow_stops_run_witness :
  app (demo_input None) overfull_session
  = Outcome (inr (Raise "StreamlitAPIException")) overfull_session
            [Header "SDLC Workflow"].
Proof.
  apply progress_overflow_stops_run. vm_compute. lia.
Defined.
